(** * HPE iLO power management script (hpe/ilo_power_1.0.4.py)

    A shallow embedding of the Redfish session manager, the metric
    discovery functions, the power controller, the thread-pool fan-out and
    the monitoring loops of [ilo_power_1.0.4.py], followed by the
    properties established about them.

    Conventions of the embedding:
    - a Python value coming out of [json.loads] is a [PyValue];
    - a Python function that can raise returns in [Exc]; a function that
      talks to a device, sleeps, prints or writes the CSV sink lives in the
      monad [M], which threads the chronological list of events and reads
      the environment (the network and the library functions);
    - only subclasses of [Exception] are modelled, and [debug] is [False]
      (the debug prints are not part of the trace);
    - float64 arithmetic is idealised as exact arithmetic over [Q]. *)

From Stdlib Require Import String List ZArith QArith Bool Lia DecimalString.
Import ListNotations.
Local Open Scope string_scope.
Local Open Scope Z_scope.
Local Open Scope list_scope.

(** ** Python values and exceptions *)

#[warnings="-register-all"]
Inductive PyValue : Type :=
| PyNone
| PyBool (b : bool)
| PyNum (q : Q)
| PyStr (s : string)
| PyList (items : list PyValue)
| PyDict (entries : list (string * PyValue)).

(** Exceptions that come from the redfish library, the standard library
    or the interpreter. *)
Inductive LibError : Type :=
| RedfishConnectionError      (* redfish.rest.connections.ConnectionError *)
| JSONDecodeError
| TypeError
| AttributeError
| KeyError
| ValueError
| UnboundLocalError
| OtherError (name : string).

(** The [Exception] subclasses met in the script: those above and the two
    classes the script defines itself (lines 87-91), which nothing outside
    the script can raise. *)
Inductive PyExn : Type :=
| Lib (e : LibError)
| ConnectionError             (* class ConnectionError(Exception) *)
| AuthenticationError.        (* class AuthenticationError(Exception) *)

Coercion Lib : LibError >-> PyExn.

Inductive Exc (A : Type) : Type :=
| Ok (a : A)
| Raise (e : PyExn).
Arguments Ok {A} a.
Arguments Raise {A} e.

Definition exc_bind {A B} (c : Exc A) (k : A -> Exc B) : Exc B :=
  match c with
  | Ok a => k a
  | Raise e => Raise e
  end.

(** [try: c  except Exception as e: h e] *)
Definition exc_try {A} (c : Exc A) (h : PyExn -> Exc A) : Exc A :=
  match c with
  | Ok a => Ok a
  | Raise e => h e
  end.

Declare Scope exc_scope.
Delimit Scope exc_scope with exc.
Notation "x <~ c ;; k" := (exc_bind c (fun x => k))
  (at level 100, c at next level, right associativity) : exc_scope.

(** *** Truthiness, [in], subscripts and [.get] *)

Definition str_empty (s : string) : bool :=
  match s with
  | EmptyString => true
  | String _ _ => false
  end.

(** [bool(v)] *)
Definition truthy (v : PyValue) : bool :=
  match v with
  | PyNone => false
  | PyBool b => b
  | PyNum q => negb (Qeq_bool q 0)
  | PyStr s => negb (str_empty s)
  | PyList l => match l with [] => false | _ :: _ => true end
  | PyDict d => match d with [] => false | _ :: _ => true end
  end.

Definition is_none (v : PyValue) : bool :=
  match v with
  | PyNone => true
  | _ => false
  end.

Fixpoint dict_lookup (key : string) (d : list (string * PyValue)) : option PyValue :=
  match d with
  | [] => None
  | (k, v) :: rest => if String.eqb k key then Some v else dict_lookup key rest
  end.

Definition is_str_eq (key : string) (v : PyValue) : bool :=
  match v with
  | PyStr s => String.eqb s key
  | _ => false
  end.

(** [key in s] for two strings: substring test. *)
Definition str_contains (key s : string) : bool :=
  match String.index 0 key s with
  | Some _ => true
  | None => false
  end.

(** [key in v] where [key] is a string literal. *)
Definition py_in (key : string) (v : PyValue) : Exc bool :=
  match v with
  | PyDict d => Ok (match dict_lookup key d with Some _ => true | None => false end)
  | PyList l => Ok (existsb (is_str_eq key) l)
  | PyStr s => Ok (str_contains key s)
  | _ => Raise TypeError
  end.

(** [v[key]] where [key] is a string literal. *)
Definition py_getitem (v : PyValue) (key : string) : Exc PyValue :=
  match v with
  | PyDict d => match dict_lookup key d with
                | Some x => Ok x
                | None => Raise KeyError
                end
  | _ => Raise TypeError
  end.

(** [v.get(key, default)]; only dictionaries have the method. *)
Definition py_get_default (v : PyValue) (key : string) (default : PyValue) : Exc PyValue :=
  match v with
  | PyDict d => Ok (match dict_lookup key d with Some x => x | None => default end)
  | _ => Raise AttributeError
  end.

(** [v.get(key)] *)
Definition py_get (v : PyValue) (key : string) : Exc PyValue :=
  py_get_default v key PyNone.

Definition isinstance_list (v : PyValue) : bool :=
  match v with PyList _ => true | _ => false end.

Definition isinstance_dict (v : PyValue) : bool :=
  match v with PyDict _ => true | _ => false end.

(** [isinstance(v, (int, float))]; [bool] is a subclass of [int]. *)
Definition isinstance_number (v : PyValue) : bool :=
  match v with PyNum _ | PyBool _ => true | _ => false end.

(** The numeric value of an [int], [float] or [bool]. *)
Definition number_value (v : PyValue) : Q :=
  match v with
  | PyNum q => q
  | PyBool true => 1
  | _ => 0
  end.

Definition Qsum (l : list Q) : Q := fold_right Qplus 0%Q l.

(** [np.sum] and [np.mean] of a one-dimensional float64 array. *)
Definition np_sum (l : list Q) : Q := Qsum l.
Definition np_mean (l : list Q) : Q := (Qsum l / inject_Z (Z.of_nat (length l)))%Q.

(** ** Responses and the shared parser *)

Record Response : Type := { status : Z; text : string }.

(** [_safe_get_json(response, ip, debug, context)], lines 94-119.
    [json_loads] is [json.loads]; a response object is always truthy, so
    [not response] holds only for [None]. *)
Definition _safe_get_json (json_loads : string -> Exc PyValue)
    (response : option Response) : Exc PyValue :=
  match response with
  | None => Ok PyNone
  | Some r =>
      if negb (status r =? 200) then Ok PyNone
      else if str_empty (text r) then Ok PyNone
      else exc_try
             (data <~ json_loads (text r) ;;
              Ok (if truthy data then data else PyDict []))%exc
             (fun e => match e with
                       | Lib JSONDecodeError => Ok PyNone
                       | _ => Ok PyNone
                       end)
  end.

(** ** Devices, events and the monad of effects *)

Inductive AuthMode : Type := SessionAuth | BasicAuth.

(** What the script asks of a device through the redfish library. *)
Inductive Request : Type :=
| ReqConnect                                   (* redfish.redfish_client(base_url=...) *)
| ReqLogin (auth : AuthMode)                   (* client.login(auth=...) *)
| ReqLogout                                    (* client.logout() *)
| ReqGet (path : string)                       (* client.get(path) *)
| ReqPost (path : string) (reset_type : string). (* client.post(path, body={"ResetType": ...}) *)

(** The library call returns (a response object or [None]) or raises. *)
Inductive Reply : Type :=
| Returned (r : option Response)
| Raised (e : LibError).

(** A CSV cell: [f"{q:.2f}"] is kept as [CellFixed 2 q]. *)
Inductive Cell : Type :=
| CellFixed (digits : nat) (q : Q)
| CellStr (s : string)
| CellInt (n : Z)
| CellTime (t : Z).

Definition Row : Type := list (string * Cell).

(** One entry per observable effect, in chronological order.  A print is
    kept as its f-string template (without leading newlines) and the
    values interpolated into it. *)
Inductive Event : Type :=
| EvIO (ip : string) (req : Request) (rep : Reply) (secs : Z)
| EvSleep (secs : Z)                                  (* time.sleep(secs) *)
| EvPrint (template : string) (args : list PyValue)   (* print(f"...") *)
| EvTried (label : string)        (* endpoints_tried.append / methods_tried.append *)
| EvSink (csv_path : string) (rows : list Row) (accepted : bool).   (* df.to_csv *)

Definition Trace : Type := list Event.

(** The environment of a run: library functions and the outside world.
    A device answers as a function of everything that happened before;
    [latency] is the wall-clock time the call takes, in seconds. *)
Record Env : Type := {
  json_loads : string -> Exc PyValue;                   (* json.loads *)
  float_of_str : string -> Exc Q;                       (* float(s), as numpy applies it *)
  respond : Trace -> string -> Request -> Reply;
  latency : Trace -> string -> Request -> Z;
  sink_accepts : Trace -> string -> bool                (* the CSV file can be written *)
}.

Definition M (A : Type) : Type := Env -> Trace -> Exc A * Trace.

Definition ret {A} (a : A) : M A := fun _ tr => (Ok a, tr).

Definition bind {A B} (c : M A) (k : A -> M B) : M B :=
  fun env tr =>
    match c env tr with
    | (Ok a, tr') => k a env tr'
    | (Raise e, tr') => (Raise e, tr')
    end.

Definition raise {A} (e : PyExn) : M A := fun _ tr => (Raise e, tr).

Definition lift {A} (c : Exc A) : M A := fun _ tr => (c, tr).

(** [try: c  except Exception as e: h e] *)
Definition try_except {A} (c : M A) (h : PyExn -> M A) : M A :=
  fun env tr =>
    match c env tr with
    | (Ok a, tr') => (Ok a, tr')
    | (Raise e, tr') => h e env tr'
    end.

(** [c] followed by [cleanup] on every exit path of [c]; an exception of
    the cleanup itself replaces the outcome of [c]. *)
Definition finally {A} (c : M A) (cleanup : M unit) : M A :=
  fun env tr =>
    match c env tr with
    | (r, tr') =>
        match cleanup env tr' with
        | (Ok _, tr'') => (r, tr'')
        | (Raise e, tr'') => (Raise e, tr'')
        end
    end.

Declare Scope m_scope.
Delimit Scope m_scope with m.
Notation "x <- c ;; k" := (bind c (fun x => k))
  (at level 100, c at next level, right associativity) : m_scope.
Notation "c ;; k" := (bind c (fun _ => k))
  (at level 100, right associativity) : m_scope.
Local Open Scope m_scope.

Definition emit (ev : Event) : M unit := fun _ tr => (Ok tt, tr ++ [ev]).

Definition print (template : string) (args : list PyValue) : M unit :=
  emit (EvPrint template args).

(** [time.sleep(secs)]; a negative length is refused with [ValueError]. *)
Definition sleep (secs : Z) : M unit :=
  if secs <? 0 then raise ValueError else emit (EvSleep secs).

(** A call into the redfish library for the device at [ip]. *)
Definition io (ip : string) (req : Request) : M (option Response) :=
  fun env tr =>
    let rep := respond env tr ip req in
    let tr' := tr ++ [EvIO ip req rep (latency env tr ip req)] in
    match rep with
    | Returned r => (Ok r, tr')
    | Raised e => (Raise (Lib e), tr')
    end.

Definition duration (ev : Event) : Z :=
  match ev with
  | EvIO _ _ _ secs => secs
  | EvSleep secs => secs
  | _ => 0
  end.

Definition elapsed (tr : Trace) : Z := fold_right (fun ev acc => duration ev + acc) 0 tr.

(** [datetime.datetime.now()], in seconds since the start of the run. *)
Definition now : M Z := fun _ tr => (Ok (elapsed tr), tr).

Definition safe_get_json (response : option Response) : M PyValue :=
  fun env tr => (_safe_get_json (json_loads env) response, tr).

(** ** Session manager *)

(** An entry of [ilo_systems]: the dictionary built by the CSV loader. *)
Record System : Type := {
  ip : string;
  username : string;
  password : string;
  cluster : option string
}.

(** The redfish client object; it is bound to the address it was built for. *)
Record Client : Type := { base_url : string }.

Definition REDFISH_SYSTEM_PATH := "/redfish/v1/Systems/1".
Definition REDFISH_CHASSIS_PATH := "/redfish/v1/Chassis/1".
Definition REDFISH_POWER_PATH := (REDFISH_CHASSIS_PATH ++ "/Power")%string.
Definition REDFISH_POWER_SUBSYSTEM_METRICS_PATH :=
  (REDFISH_CHASSIS_PATH ++ "/PowerSubsystem/PowerMetrics")%string.
Definition REDFISH_SYSTEM_METRICS_PATH := (REDFISH_SYSTEM_PATH ++ "/Metrics")%string.
Definition REDFISH_PROCESSOR_SUMMARY_METRICS_PATH :=
  (REDFISH_SYSTEM_PATH ++ "/ProcessorSummary/ProcessorMetrics")%string.
Definition REDFISH_PROCESSOR_COLLECTION_PATH :=
  (REDFISH_SYSTEM_PATH ++ "/Processors")%string.
Definition REDFISH_HPE_PROCESSOR_COLLECTION_PATH :=
  (REDFISH_SYSTEM_PATH ++ "/Oem/Hpe/Processors")%string.
Definition REDFISH_RESET_ACTION_PATH :=
  (REDFISH_SYSTEM_PATH ++ "/Actions/ComputerSystem.Reset")%string.

Definition client_get (client : Client) (path : string) : M (option Response) :=
  io (base_url client) (ReqGet path).

Definition client_post (client : Client) (path reset_type : string) : M (option Response) :=
  io (base_url client) (ReqPost path reset_type).

Module RedfishSession.

(** [class RedfishSession], lines 537-637. *)
Record t : Type := {
  self_ip : string;
  self_username : string;
  self_password : string;
  max_retries : Z;
  retry_delay : Z
}.

(** [__init__(self, system_info, max_retries=3, retry_delay=2)] *)
Definition __init__ (system_info : System) (max_retries retry_delay : Z) : t :=
  {| self_ip := ip system_info;
     self_username := username system_info;
     self_password := password system_info;
     max_retries := max_retries;
     retry_delay := retry_delay |}.

(** The body of the [try] of one loop iteration, lines 555-591: build
    the client, log in with session auth, fall back to basic auth, and
    raise [AuthenticationError] when both are refused. *)
Definition attempt (self : t) : M Client :=
  let client := {| base_url := self_ip self |} in
  io (self_ip self) ReqConnect ;;
  try_except
    (io (self_ip self) (ReqLogin SessionAuth) ;; ret client)
    (fun e =>
       try_except
         (io (self_ip self) (ReqLogin BasicAuth) ;; ret client)
         (fun basic_e =>
            print "Login failed for {self.ip} with both session and basic auth."
                  [PyStr (self_ip self)] ;;
            try_except (io (self_ip self) ReqLogout ;; ret tt) (fun _ => ret tt) ;;
            raise AuthenticationError)).

(** The [while retries <= self.max_retries] loop, lines 553-628;
    [remaining] counts the iterations the loop condition still allows. *)
Fixpoint enter_loop (self : t) (remaining : nat) (retries : Z) : M Client :=
  match remaining with
  | O =>
      print "Failed to connect to {self.ip} after {self.max_retries} attempts"
            [PyStr (self_ip self); PyNum (inject_Z (max_retries self))] ;;
      raise ConnectionError
  | S remaining' =>
      try_except (attempt self)
        (fun e =>
           match e with
           | Lib RedfishConnectionError =>
               if retries >=? max_retries self then
                 print "Connection Error connecting to {self.ip}: {conn_err} (after {retries} retries)"
                       [PyStr (self_ip self); PyNum (inject_Z retries)] ;;
                 raise ConnectionError
               else
                 sleep (retry_delay self) ;;
                 enter_loop self remaining' (retries + 1)
           | AuthenticationError => raise AuthenticationError
           | _ =>
               if retries >=? max_retries self then
                 print "Generic Error connecting to {self.ip}: {e} (after {retries} retries)"
                       [PyStr (self_ip self); PyNum (inject_Z retries)] ;;
                 raise ConnectionError
               else
                 sleep (retry_delay self) ;;
                 enter_loop self remaining' (retries + 1)
           end)
  end.

Definition __enter__ (self : t) : M Client :=
  enter_loop self (Z.to_nat (max_retries self + 1)) 0.

(** [__exit__], lines 630-637, reached with [self.client] set. *)
Definition __exit__ (self : t) : M unit :=
  try_except (io (self_ip self) ReqLogout ;; ret tt) (fun _ => ret tt).

End RedfishSession.

(** [with RedfishSession(system) as client: body]: every call site builds
    the manager with the default [max_retries=3, retry_delay=2].  When
    [__enter__] raises, [__exit__] is not called; [__exit__] returns [None],
    so an exception of the body is re-raised after it. *)
Definition with_manager {A} (self : RedfishSession.t) (body : Client -> M A) : M A :=
  client <- RedfishSession.__enter__ self ;;
  finally (body client) (RedfishSession.__exit__ self).

Definition with_session {A} (system : System) (body : Client -> M A) : M A :=
  with_manager (RedfishSession.__init__ system 3 2) body.

(** ** Metric discovery *)

Definition exc_and (a b : Exc bool) : Exc bool :=
  (x <~ a ;; if x then b else Ok false)%exc.

(** [client.get(url)] for a URL taken out of a response body; the redfish
    library is given a string, anything else fails before a request is sent. *)
Definition client_get_value (client : Client) (url : PyValue) : M (option Response) :=
  match url with
  | PyStr path => client_get client path
  | _ => raise TypeError
  end.

Definition is_whitespace (c : Ascii.ascii) : bool :=
  let n := Ascii.nat_of_ascii c in
  (Nat.eqb n 32 || (Nat.leb 9 n && Nat.leb n 13))%bool.

(** [bool(s.strip())] *)
Fixpoint strip_truthy (s : string) : bool :=
  match s with
  | EmptyString => false
  | String c rest => if is_whitespace c then strip_truthy rest else true
  end.

(** [asset_tag and asset_tag.strip()] as a condition. *)
Definition and_strip (v : PyValue) : Exc bool :=
  if truthy v then
    match v with
    | PyStr s => Ok (strip_truthy s)
    | _ => Raise AttributeError
    end
  else Ok false.

(** [oem_data = data.get("Oem", {}); oem_data.get("Hpe", oem_data.get("Hp", {}))] *)
Definition oem_hpe (data : PyValue) : Exc PyValue :=
  (oem_data <~ py_get_default data "Oem" (PyDict []) ;;
   hp <~ py_get_default oem_data "Hp" (PyDict []) ;;
   py_get_default oem_data "Hpe" hp)%exc.

(** [get_system_identifier(client, debug)], lines 640-660.  [model] is
    assigned before [identifier], so an exception while choosing the
    identifier leaves the model already updated. *)
Definition get_system_identifier (client : Client) : M (PyValue * PyValue) :=
  try_except
    (resp <- client_get client REDFISH_SYSTEM_PATH ;;
     data <- safe_get_json resp ;;
     if truthy data then
       lift (match (asset_tag <~ py_get_default data "AssetTag" (PyStr "") ;;
                    serial_number <~ py_get_default data "SerialNumber" (PyStr "") ;;
                    model <~ py_get_default data "Model" (PyStr "Unknown") ;;
                    Ok (asset_tag, serial_number, model))%exc with
             | Ok (asset_tag, serial_number, model) =>
                 match and_strip asset_tag with
                 | Ok c => Ok (if c then asset_tag else serial_number, model)
                 | Raise _ => Ok (PyStr "Unknown", model)
                 end
             | Raise e => Raise e
             end)
     else ret (PyStr "Unknown", PyStr "Unknown"))
    (fun _ => ret (PyStr "Unknown", PyStr "Unknown")).

(** *** Power draw: [get_power_watts], lines 663-750

    Each method block is a function returning [Some watts] when the block
    executes [return watts] and [None] when control falls out of it.  Every
    assignment of a non-[None] value to [watts] is followed at once by the
    [return], so [watts] is still [None] whenever a block is left, and the
    guards [if watts is None] before methods 2 and 3 always hold. *)

(** [for pc in data["PowerControl"]: ...], lines 678-683. *)
Fixpoint power_control_scan (pcs : list PyValue) : Exc (option PyValue) :=
  match pcs with
  | [] => Ok None
  | pc :: rest =>
      (has <~ py_in "PowerConsumedWatts" pc ;;
       if has then
         watts <~ py_get pc "PowerConsumedWatts" ;;
         if is_none watts then power_control_scan rest else Ok (Some watts)
       else power_control_scan rest)%exc
  end.

Definition list_nonempty (v : PyValue) : bool :=
  match v with
  | PyList (_ :: _) => true
  | _ => false
  end.

Definition list_items (v : PyValue) : list PyValue :=
  match v with
  | PyList l => l
  | _ => []
  end.

Definition power_extract_1 (data : PyValue) : Exc (option PyValue) :=
  if truthy data then
    (c <~ exc_and (py_in "PowerControl" data)
            (pc <~ py_getitem data "PowerControl" ;;
             Ok (isinstance_list pc && list_nonempty pc)%bool) ;;
     if c then
       pc <~ py_getitem data "PowerControl" ;;
       power_control_scan (list_items pc)
     else Ok None)%exc
  else Ok None.

Definition some_unless_none (v : PyValue) : option PyValue :=
  if is_none v then None else Some v.

Definition power_extract_2 (data_alt : PyValue) : Exc (option PyValue) :=
  if truthy data_alt then
    (c1 <~ exc_and (py_in "PowerMetrics" data_alt)
             (exc_and (pm <~ py_getitem data_alt "PowerMetrics" ;; Ok (isinstance_dict pm))
                      (pm <~ py_getitem data_alt "PowerMetrics" ;;
                       py_in "PowerConsumedWatts" pm)) ;;
     watts <~ (if c1 then
                 pm <~ py_getitem data_alt "PowerMetrics" ;;
                 py_get pm "PowerConsumedWatts"
               else
                 c2 <~ py_in "PowerConsumedWatts" data_alt ;;
                 if c2 then py_get data_alt "PowerConsumedWatts"
                 else
                   c3 <~ py_in "PowerWatts" data_alt ;;
                   if c3 then py_get data_alt "PowerWatts" else Ok PyNone) ;;
     Ok (some_unless_none watts))%exc
  else Ok None.

Definition power_extract_3 (sys_data : PyValue) : Exc (option PyValue) :=
  (c <~ (if truthy sys_data then py_in "Oem" sys_data else Ok false) ;;
   if c then
     hpe_data <~ oem_hpe sys_data ;;
     has <~ py_in "PowerConsumedWatts" hpe_data ;;
     if has then
       watts <~ py_get hpe_data "PowerConsumedWatts" ;;
       Ok (some_unless_none watts)
     else Ok None
   else Ok None)%exc.

(** One single-request method: GET, parse, extract, with the two [except]
    clauses of the block ([redfish...ConnectionError] and [Exception]),
    both of which only log under [debug]. *)
Definition single_request_method (client : Client) (path : string)
    (extract : PyValue -> Exc (option PyValue)) : M (option PyValue) :=
  try_except
    (resp <- client_get client path ;;
     data <- safe_get_json resp ;;
     lift (extract data))
    (fun e => match e with
              | Lib RedfishConnectionError => ret None
              | _ => ret None
              end).

Definition tried (label : string) : M unit := emit (EvTried label).

Definition get_power_watts (client : Client) (ip : string) (identifier : PyValue)
    : M PyValue :=
  try_except
    (tried REDFISH_POWER_PATH ;;
     r1 <- single_request_method client REDFISH_POWER_PATH power_extract_1 ;;
     match r1 with
     | Some watts => ret watts
     | None =>
         tried REDFISH_POWER_SUBSYSTEM_METRICS_PATH ;;
         r2 <- single_request_method client REDFISH_POWER_SUBSYSTEM_METRICS_PATH
                 power_extract_2 ;;
         match r2 with
         | Some watts => ret watts
         | None =>
             tried (REDFISH_SYSTEM_PATH ++ " (OEM Check)")%string ;;
             r3 <- single_request_method client REDFISH_SYSTEM_PATH power_extract_3 ;;
             match r3 with
             | Some watts => ret watts
             | None => ret PyNone
             end
         end
     end)
    (fun e =>
       print "Error getting power for {ip} ({identifier}): {e}" [PyStr ip; identifier] ;;
       ret PyNone).

(** *** CPU utilisation: [get_cpu_utilization], lines 752-950 *)

Definition cpu_extract_1 (data : PyValue) : Exc (option PyValue) :=
  (c <~ (if truthy data then py_in "Oem" data else Ok false) ;;
   if c then
     hpe_data <~ oem_hpe data ;;
     c1 <~ (if truthy hpe_data then py_in "ProcessorUtilization" hpe_data else Ok false) ;;
     if c1 then
       cpu_load <~ py_get hpe_data "ProcessorUtilization" ;;
       Ok (some_unless_none cpu_load)
     else
       c2 <~ (if truthy hpe_data then
                exc_and (py_in "SystemUsage" hpe_data)
                        (su <~ py_getitem hpe_data "SystemUsage" ;; Ok (isinstance_dict su))
              else Ok false) ;;
       if c2 then
         system_usage <~ py_getitem hpe_data "SystemUsage" ;;
         has <~ py_in "CPUUtil" system_usage ;;
         if has then
           cpu_load <~ py_get system_usage "CPUUtil" ;;
           Ok (some_unless_none cpu_load)
         else Ok None
       else Ok None
   else Ok None)%exc.

Definition cpu_extract_2 (metrics_data : PyValue) : Exc (option PyValue) :=
  if truthy metrics_data then
    (c1 <~ exc_and (py_in "ProcessorSummary" metrics_data)
             (exc_and (ps <~ py_getitem metrics_data "ProcessorSummary" ;;
                       Ok (isinstance_dict ps))
                      (ps <~ py_getitem metrics_data "ProcessorSummary" ;;
                       py_in "CPUUtilization" ps)) ;;
     cpu_load <~ (if c1 then
                    ps <~ py_getitem metrics_data "ProcessorSummary" ;;
                    py_get ps "CPUUtilization"
                  else
                    c2 <~ py_in "CPUUtilization" metrics_data ;;
                    if c2 then py_get metrics_data "CPUUtilization" else Ok PyNone) ;;
     Ok (some_unless_none cpu_load))%exc
  else Ok None.

Definition cpu_extract_3 (proc_data : PyValue) : Exc (option PyValue) :=
  if truthy proc_data then
    (c1 <~ py_in "TotalCorePercent" proc_data ;;
     cpu_load <~ (if c1 then py_get proc_data "TotalCorePercent"
                  else
                    c2 <~ py_in "CPUUtilizationPercent" proc_data ;;
                    if c2 then py_get proc_data "CPUUtilizationPercent" else Ok PyNone) ;;
     Ok (some_unless_none cpu_load))%exc
  else Ok None.

(** [util is not None and isinstance(util, (int, float))] *)
Definition usable_util (util : PyValue) : bool :=
  (negb (is_none util) && isinstance_number util)%bool.

(** [np.mean(cpu_loads)] of a list of numbers. *)
Definition mean_of_loads (cpu_loads : list PyValue) : PyValue :=
  PyNum (np_mean (map number_value cpu_loads)).

(** Lines 862-876: the utilisation in the OEM block of one processor. *)
Definition processor_util (proc_detail : PyValue) : Exc (option PyValue) :=
  (c <~ (if truthy proc_detail then py_in "Oem" proc_detail else Ok false) ;;
   if c then
     hpe_proc <~ oem_hpe proc_detail ;;
     c1 <~ py_in "CurrentUtilization" hpe_proc ;;
     util <~ (if c1 then py_getitem hpe_proc "CurrentUtilization"
              else
                c2 <~ py_in "ProcessorUtilization" hpe_proc ;;
                if c2 then py_getitem hpe_proc "ProcessorUtilization"
                else
                  c3 <~ py_in "UtilizationPercent" hpe_proc ;;
                  if c3 then py_getitem hpe_proc "UtilizationPercent" else Ok PyNone) ;;
     Ok (if usable_util util then Some util else None)
   else Ok None)%exc.

(** [for member in proc_collection["Members"]: ...], lines 855-886.  The
    membership test and the subscript are outside the inner [try]; the
    request for the member and its parsing are inside it. *)
Fixpoint processor_loads (client : Client) (members cpu_loads : list PyValue)
    : M (list PyValue) :=
  match members with
  | [] => ret cpu_loads
  | member :: rest =>
      has <- lift (py_in "@odata.id" member) ;;
      if has then
        proc_url <- lift (py_getitem member "@odata.id") ;;
        found <- try_except
                   (proc_detail_resp <- client_get_value client proc_url ;;
                    proc_detail <- safe_get_json proc_detail_resp ;;
                    lift (processor_util proc_detail))
                   (fun e => match e with
                             | Lib RedfishConnectionError => ret None
                             | _ => ret None
                             end) ;;
        processor_loads client rest
          (match found with
           | Some util => cpu_loads ++ [util]
           | None => cpu_loads
           end)
      else processor_loads client rest cpu_loads
  end.

Definition returned_mean (cpu_loads : list PyValue) : option PyValue :=
  match cpu_loads with
  | [] => None
  | _ :: _ => Some (mean_of_loads cpu_loads)
  end.

(** Method 4, lines 849-897. *)
Definition cpu_method_4 (client : Client) : M (option PyValue) :=
  try_except
    (proc_coll_resp <- client_get client REDFISH_PROCESSOR_COLLECTION_PATH ;;
     proc_collection <- safe_get_json proc_coll_resp ;;
     c <- lift (if truthy proc_collection then
                  exc_and (py_in "Members" proc_collection)
                          (ms <~ py_getitem proc_collection "Members" ;;
                           Ok (isinstance_list ms))%exc
                else Ok false) ;;
     if c then
       ms <- lift (py_getitem proc_collection "Members") ;;
       cpu_loads <- processor_loads client (list_items ms) [] ;;
       ret (returned_mean cpu_loads)
     else ret None)
    (fun e => match e with
              | Lib RedfishConnectionError => ret None
              | _ => ret None
              end).

(** [for member in proc_data["Members"]: ...], lines 919-926. *)
Fixpoint member_loads (members cpu_loads : list PyValue) : Exc (list PyValue) :=
  match members with
  | [] => Ok cpu_loads
  | member :: rest =>
      (c1 <~ py_in "ProcessorUtilization" member ;;
       util <~ (if c1 then py_getitem member "ProcessorUtilization"
                else
                  c2 <~ py_in "Utilization" member ;;
                  if c2 then py_getitem member "Utilization" else Ok PyNone) ;;
       member_loads rest (if usable_util util then cpu_loads ++ [util] else cpu_loads))%exc
  end.

Definition cpu_extract_5 (proc_data : PyValue) : Exc (option PyValue) :=
  (c <~ (if truthy proc_data then
           exc_and (py_in "Members" proc_data)
                   (ms <~ py_getitem proc_data "Members" ;;
                    Ok (isinstance_list ms && list_nonempty ms)%bool)
         else Ok false) ;;
   if c then
     has <~ py_in "AverageProcessorUtilization" proc_data ;;
     if has then
       cpu_load <~ py_get proc_data "AverageProcessorUtilization" ;;
       Ok (some_unless_none cpu_load)
     else
       ms <~ py_getitem proc_data "Members" ;;
       cpu_loads <~ member_loads (list_items ms) [] ;;
       Ok (returned_mean cpu_loads)
   else Ok None)%exc.

(** The outer [try ... except Exception] wrapped around each method block. *)
Definition guarded (method : M (option PyValue)) : M (option PyValue) :=
  try_except method (fun _ => ret None).

Definition get_cpu_utilization (client : Client) (ip : string) (identifier : PyValue)
    : M PyValue :=
  r1 <- guarded (tried "System OEM Hpe/Hp" ;;
                 single_request_method client REDFISH_SYSTEM_PATH cpu_extract_1) ;;
  match r1 with
  | Some cpu_load => ret cpu_load
  | None =>
  r2 <- guarded (tried "System Metrics" ;;
                 single_request_method client REDFISH_SYSTEM_METRICS_PATH cpu_extract_2) ;;
  match r2 with
  | Some cpu_load => ret cpu_load
  | None =>
  r3 <- guarded (tried "Processor Summary Metrics" ;;
                 single_request_method client REDFISH_PROCESSOR_SUMMARY_METRICS_PATH
                   cpu_extract_3) ;;
  match r3 with
  | Some cpu_load => ret cpu_load
  | None =>
  r4 <- guarded (tried "Individual Processors OEM" ;; cpu_method_4 client) ;;
  match r4 with
  | Some cpu_load => ret cpu_load
  | None =>
  r5 <- guarded (tried "HPE Processor Collection" ;;
                 single_request_method client REDFISH_HPE_PROCESSOR_COLLECTION_PATH
                   cpu_extract_5) ;;
  match r5 with
  | Some cpu_load => ret cpu_load
  | None => ret PyNone
  end end end end end.

(** ** Power state controller *)

(** [f"{n}"] for an integer. *)
Definition str_of_int (n : Z) : string := NilZero.string_of_int (Z.to_int n).

(** [get_power_status(client, ip, debug)], lines 952-974.  [resp] and
    [data] are assigned inside the [try] only: when [client.get] raises,
    the handler swallows the exception and the test [data is None] that
    follows reads an unassigned local. *)
Definition get_power_status (client : Client) (ip : string) : M PyValue :=
  assigned <- try_except
                (resp <- client_get client REDFISH_SYSTEM_PATH ;;
                 data <- safe_get_json resp ;;
                 ret (Some (resp, data)))
                (fun _ => ret None) ;;
  match assigned with
  | None => raise UnboundLocalError
  | Some (resp, data) =>
      let power_state :=
        if truthy data then
          match py_get_default data "PowerState" (PyStr "Unknown") with
          | Ok v => v
          | Raise _ => PyStr "Unknown"
          end
        else PyStr "Unknown" in
      match resp with
      | Some r =>
          if (is_none data && negb (status r =? 200))%bool then
            ret (PyStr ("Unknown (Status " ++ str_of_int (status r) ++ ")")%string)
          else if (is_none data && str_empty (text r))%bool then
            ret (PyStr "Unknown (Empty Response)")
          else if is_none data then ret (PyStr "Unknown (JSON Error)")
          else ret power_state
      | None =>
          if is_none data then ret (PyStr "Unknown (JSON Error)") else ret power_state
      end
  end.

(** [current_state == literal] *)
Definition py_eq_str (v : PyValue) (literal : string) : bool := is_str_eq literal v.

(** [current_state.startswith(prefix)] *)
Definition py_startswith (v : PyValue) (prefix : string) : Exc bool :=
  match v with
  | PyStr s => Ok (String.prefix prefix s)
  | _ => Raise AttributeError
  end.

(** [resp.status in [200, 202, 204]]; [resp] may be [None]. *)
Definition status_accepted (resp : option Response) : Exc bool :=
  match resp with
  | Some r => Ok ((status r =? 200) || (status r =? 202) || (status r =? 204))%bool
  | None => Raise AttributeError
  end.

Definition status_of (resp : option Response) : PyValue :=
  match resp with
  | Some r => PyNum (inject_Z (status r))
  | None => PyNone
  end.

(** [power_on_system(system, debug)], lines 1135-1171. *)
Definition power_on_system (system : System) : M bool :=
  with_session system (fun client =>
    current_state <- get_power_status client (ip system) ;;
    if py_eq_str current_state "On" then
      print "System at {ip} is already powered on." [PyStr (ip system)] ;;
      ret true
    else
      unknown <- lift (py_startswith current_state "Unknown") ;;
      (if unknown then
         print "Warning: Could not determine current power state for {ip} ({current_state}). Attempting power on."
               [PyStr (ip system); current_state]
       else ret tt) ;;
      print "Powering on system at {ip}..." [PyStr (ip system)] ;;
      try_except
        (resp <- client_post client REDFISH_RESET_ACTION_PATH "On" ;;
         ok <- lift (status_accepted resp) ;;
         if ok then
           print "Successfully initiated power on for {ip}" [PyStr (ip system)] ;;
           ret true
         else
           print "Failed to power on {ip}. Status: {resp.status}, Response: {response_text}"
                 [PyStr (ip system); status_of resp] ;;
           ret false)
        (fun e =>
           print "Error during power on for {ip}: {e}" [PyStr (ip system)] ;;
           ret false)).

(** [power_off_system(system, force, debug)], lines 1173-1212. *)
Definition power_off_system (system : System) (force : bool) : M bool :=
  with_session system (fun client =>
    current_state <- get_power_status client (ip system) ;;
    if py_eq_str current_state "Off" then
      print "System at {ip} is already powered off." [PyStr (ip system)] ;;
      ret true
    else
      unknown <- lift (py_startswith current_state "Unknown") ;;
      (if unknown then
         print "Warning: Could not determine current power state for {ip} ({current_state}). Attempting power off."
               [PyStr (ip system); current_state]
       else ret tt) ;;
      let reset_type := if force then "ForceOff" else "GracefulShutdown" in
      let shutdown_desc := if force then "forced" else "graceful" in
      print "Performing {shutdown_desc} shutdown for {ip}..."
            [PyStr shutdown_desc; PyStr (ip system)] ;;
      try_except
        (resp <- client_post client REDFISH_RESET_ACTION_PATH reset_type ;;
         ok <- lift (status_accepted resp) ;;
         if ok then
           print "Successfully initiated {shutdown_desc} shutdown for {ip}"
                 [PyStr shutdown_desc; PyStr (ip system)] ;;
           ret true
         else
           print "Failed to shutdown {ip}. Status: {resp.status}, Response: {response_text}"
                 [PyStr (ip system); status_of resp] ;;
           ret false)
        (fun e =>
           print "Error during shutdown for {ip}: {e}" [PyStr (ip system)] ;;
           ret false)).

(** The state a caller asks for. *)
Inductive DesiredState : Type := DesiredOn | DesiredOff.

Definition state_name (desired : DesiredState) : string :=
  match desired with
  | DesiredOn => "On"
  | DesiredOff => "Off"
  end.

(** The two entry points of the controller under the one name the
    specification uses for them. *)
Definition ensureState (system : System) (desired : DesiredState) (force : bool) : M bool :=
  match desired with
  | DesiredOn => power_on_system system
  | DesiredOff => power_off_system system force
  end.

(** ** Fan-out over the thread pool *)

(** A future keeps what its call returned or raised. *)
Definition capture {A} (c : M A) : M (Exc A) :=
  try_except (a <- c ;; ret (Ok a)) (fun e => ret (Raise e)).

Fixpoint run_workers {A B} (fn : A -> M B) (items : list A) : M (list (Exc B)) :=
  match items with
  | [] => ret []
  | x :: rest =>
      future <- capture (fn x) ;;
      futures <- run_workers fn rest ;;
      ret (future :: futures)
  end.

(** [list(...)] over the result iterator: the results in input order, or
    the exception of the first future that holds one. *)
Fixpoint collect {B} (futures : list (Exc B)) : Exc (list B) :=
  match futures with
  | [] => Ok []
  | Ok b :: rest =>
      match collect rest with
      | Ok bs => Ok (b :: bs)
      | Raise e => Raise e
      end
  | Raise e :: _ => Raise e
  end.

(** [with ThreadPoolExecutor(max_workers=workers) as executor:
       results = list(executor.map(fn, items))].
    Every item is submitted and runs in its own call; the events of the
    calls are kept target after target, which is one of the interleavings
    of the pool and the exact one for a single worker. *)
Definition executor_map {A B} (workers : Z) (fn : A -> M B) (items : list A)
    : M (list B) :=
  if workers <=? 0 then raise ValueError
  else
    futures <- run_workers fn items ;;
    lift (collect futures).

(** The dictionary [{'ip': ..., 'watts': ..., 'cpu_load': ...}]. *)
Record Metrics : Type := {
  metrics_ip : string;
  watts : PyValue;
  cpu_load : PyValue
}.

(** [f"{v:.1f}"]: only numbers accept the format code. *)
Definition format_fixed (v : PyValue) : Exc unit :=
  match v with
  | PyNum _ | PyBool _ => Ok tt
  | PyStr _ => Raise ValueError
  | _ => Raise TypeError
  end.

(** [get_system_metrics(system)], the worker of [monitor_power],
    lines 1476-1496. *)
Definition get_system_metrics (system : System) : M Metrics :=
  with_session system (fun client =>
    id_model <- get_system_identifier client ;;
    let identifier := fst id_model in
    w <- get_power_watts client (ip system) identifier ;;
    c <- get_cpu_utilization client (ip system) identifier ;;
    (if is_none c then ret tt else lift (format_fixed c)) ;;
    print "{ip}: {watts_str}, {cpu_str}" [PyStr (ip system); w; c] ;;
    ret {| metrics_ip := ip system; watts := w; cpu_load := c |}).

(** [get_power(system)], the worker of the [--power-watts] command,
    lines 1867-1887. *)
Definition get_power (system : System) : M PyValue :=
  try_except
    (with_session system (fun client =>
       id_model <- get_system_identifier client ;;
       w <- get_power_watts client (ip system) (fst id_model) ;;
       if is_none w then ret PyNone
       else
         print "{ip}: {watts}W" [PyStr (ip system); w] ;;
         ret w))
    (fun e =>
       match e with
       | ConnectionError | AuthenticationError => ret PyNone
       | _ =>
           print "Error getting power in thread for {ip}: {e}" [PyStr (ip system)] ;;
           ret PyNone
       end).

(** ** Aggregation and the persistence sink *)

(** One element of [np.array([...], dtype=np.float64)].  [None] never
    reaches the conversion (the comprehension filters it out); a reading
    that is itself a list or a dictionary is counted as a failed
    conversion. *)
Definition np_float64 (float_of_str : string -> Exc Q) (v : PyValue) : Exc Q :=
  match v with
  | PyNum q => Ok q
  | PyBool b => Ok (if b then 1 else 0)%Q
  | PyStr s => float_of_str s
  | PyNone => Raise TypeError
  | PyList _ => Raise ValueError
  | PyDict _ => Raise TypeError
  end.

Fixpoint exc_map {A B} (f : A -> Exc B) (l : list A) : Exc (list B) :=
  match l with
  | [] => Ok []
  | x :: rest =>
      (y <~ f x ;;
       ys <~ exc_map f rest ;;
       Ok (y :: ys))%exc
  end.

(** [[v for v in values if v is not None]] *)
Definition not_none (values : list PyValue) : list PyValue :=
  filter (fun v => negb (is_none v)) values.

Definition np_array_float64 (values : list PyValue) : M (list Q) :=
  fun env tr => (exc_map (np_float64 (float_of_str env)) values, tr).

(** Lines 1508-1513 of [monitor_power]. *)
Record Aggregates : Type := {
  valid_power_readings : nat;
  valid_cpu_readings : nat;
  total_watts : Q;
  avg_watts : Q;
  avg_cpu : option Q
}.

Definition aggregate (watts_values cpu_values : list Q) : Aggregates :=
  let valid_power_readings := length watts_values in
  let valid_cpu_readings := length cpu_values in
  {| valid_power_readings := valid_power_readings;
     valid_cpu_readings := valid_cpu_readings;
     total_watts := if (0 <? valid_power_readings)%nat then np_sum watts_values else 0%Q;
     avg_watts := if (0 <? valid_power_readings)%nat then np_mean watts_values else 0%Q;
     avg_cpu := if (0 <? valid_cpu_readings)%nat then Some (np_mean cpu_values) else None |}.

(** The single row built by [save_power_data_to_csv], lines 380-391. *)
Definition power_row (timestamp : Z) (total_watts avg_watts : Q) (avg_cpu_load : option Q)
    (valid_readings total_servers : nat) : Row :=
  let avg_cpu_str :=
    match avg_cpu_load with
    | Some c => CellFixed 2 c
    | None => CellStr "Unknown"
    end in
  [ ("timestamp", CellTime timestamp);
    ("total_power_watts", CellFixed 2 total_watts);
    ("avg_power_watts", CellFixed 2 avg_watts);
    ("avg_cpu_load", avg_cpu_str);
    ("valid_readings", CellInt (Z.of_nat valid_readings));
    ("total_servers", CellInt (Z.of_nat total_servers)) ].

(** [save_power_data_to_csv], lines 360-406: the row is appended to the
    file; any failure of the file system is printed and turned into [None]. *)
Definition save_power_data_to_csv (csv_path : string) (timestamp : Z)
    (total_watts avg_watts : Q) (avg_cpu_load : option Q)
    (valid_readings total_servers : nat) : M (option string) :=
  fun env tr =>
    let row := power_row timestamp total_watts avg_watts avg_cpu_load
                 valid_readings total_servers in
    if sink_accepts env tr csv_path then
      (Ok (Some csv_path), tr ++ [EvSink csv_path [row] true])
    else
      (Ok None, tr ++ [EvSink csv_path [row] false;
                       EvPrint "Error saving power data to CSV: {str(e)}" []]).

Definition py_nat (n : nat) : PyValue := PyNum (inject_Z (Z.of_nat n)).

(** ** Monitoring loop *)

(** One iteration of [monitor_power] from the header print to the CSV
    write, lines 1473-1532. *)
Definition monitor_power_tick (ilo_systems : list System) (output_csv : string)
    (workers : Z) (current_time : Z) : M unit :=
  print "[{timestamp}] Checking metrics for {len(ilo_systems)} systems..."
        [PyNum (inject_Z current_time); py_nat (length ilo_systems)] ;;
  results <- executor_map workers get_system_metrics ilo_systems ;;
  watts_values <- np_array_float64 (not_none (map watts results)) ;;
  cpu_values <- np_array_float64 (not_none (map cpu_load results)) ;;
  let agg := aggregate watts_values cpu_values in
  print "Monitoring Summary:" [] ;;
  print "  Total power consumption: {total_watts:.2f}W" [PyNum (total_watts agg)] ;;
  print "  Average per server: {avg_watts:.2f}W" [PyNum (avg_watts agg)] ;;
  print "  Power readings from {valid_power_readings} out of {len(ilo_systems)} servers"
        [py_nat (valid_power_readings agg); py_nat (length ilo_systems)] ;;
  match avg_cpu agg with
  | Some c =>
      print "  Average CPU utilization: {avg_cpu:.2f}%" [PyNum c] ;;
      print "  CPU readings from {valid_cpu_readings} out of {len(ilo_systems)} servers"
            [py_nat (valid_cpu_readings agg); py_nat (length ilo_systems)]
  | None => ret tt
  end ;;
  saved_path <- save_power_data_to_csv output_csv current_time
                  (total_watts agg) (avg_watts agg) (avg_cpu agg)
                  (valid_power_readings agg) (length ilo_systems) ;;
  match saved_path with
  | Some path => print "  Data saved to {saved_path}" [PyStr path]
  | None => ret tt
  end.

Section MonitoringLoop.

(** The loop shared by [monitor_power] (lines 1466-1541) and
    [monitor_full] (lines 1555-1614); the two differ in [tick], the work
    done between reading the clock and the iteration-limit check. *)
Variable tick : Z -> M unit.
Variable interval_minutes : Z.
Variable iterations : option Z.

(** [iterations is None or iteration < iterations] *)
Definition loop_continues (iteration : Z) : bool :=
  match iterations with
  | None => true
  | Some k => iteration <? k
  end.

(** [iterations is not None and iteration >= iterations] *)
Definition limit_reached (iteration : Z) : bool :=
  match iterations with
  | None => false
  | Some k => iteration >=? k
  end.

(** The result is [true] when the loop is left and [false] when the
    model has followed [fuel] iterations of a loop that is still
    running. *)
Fixpoint monitoring_loop (fuel : nat) (iteration : Z) : M bool :=
  if loop_continues iteration then
    match fuel with
    | O => ret false
    | S fuel' =>
        let iteration := iteration + 1 in
        current_time <- now ;;
        tick current_time ;;
        if limit_reached iteration then ret true
        else
          let next_time := current_time + interval_minutes * 60 in
          print "Next check scheduled for: {next_time}" [PyNum (inject_Z next_time)] ;;
          sleep (interval_minutes * 60) ;;
          monitoring_loop fuel' iteration
    end
  else ret true.

End MonitoringLoop.

(** [monitor_power(ilo_systems, interval_minutes, output_csv, workers,
    iterations, debug)], lines 1461-1548. *)
Definition monitor_power (ilo_systems : list System) (interval_minutes : Z)
    (output_csv : string) (workers : Z) (iterations : option Z) (fuel : nat) : M bool :=
  print "Starting power and CPU monitoring every {interval_minutes} minutes"
        [PyNum (inject_Z interval_minutes)] ;;
  print "Saving data to: {output_csv}" [PyStr output_csv] ;;
  try_except
    (monitoring_loop (monitor_power_tick ilo_systems output_csv workers)
       interval_minutes iterations fuel 0)
    (fun e =>
       print "Error during monitoring: {str(e)}" [] ;;
       ret true).

(** The fan-out of the [--power-watts] branch of [main], lines 1866-1889. *)
Definition power_watts_results (ilo_systems : list System) (workers : Z)
    : M (list PyValue) :=
  executor_map workers get_power ilo_systems.


(** ** Observations on traces *)

Definition replied (rep : Reply) : bool :=
  match rep with
  | Returned _ => true
  | Raised _ => false
  end.

(** What a run shows of the session protocol: requests with their
    outcome where the script branches on it, and sleeps. *)
Inductive Step : Type :=
| StepConnect (ok : bool)
| StepLogin (auth : AuthMode) (ok : bool)
| StepLogout
| StepSleep (secs : Z)
| StepGet (path : string)
| StepPost (path reset_type : string).

Definition step_of (ev : Event) : list Step :=
  match ev with
  | EvIO _ ReqConnect rep _ => [StepConnect (replied rep)]
  | EvIO _ (ReqLogin auth) rep _ => [StepLogin auth (replied rep)]
  | EvIO _ ReqLogout _ _ => [StepLogout]
  | EvIO _ (ReqGet path) _ _ => [StepGet path]
  | EvIO _ (ReqPost path reset_type) _ _ => [StepPost path reset_type]
  | EvSleep secs => [StepSleep secs]
  | _ => []
  end.

Definition steps (evs : list Event) : list Step := flat_map step_of evs.

(** How one authentication attempt can end. *)
Inductive Attempt : Type :=
| ConnectFailed        (* building the client raised: a connection-level failure *)
| SessionAccepted      (* login(auth="session") returned *)
| BasicAccepted        (* session auth refused, login(auth="basic") returned *)
| BothRejected.        (* both auth modes refused *)

Definition attempt_steps (a : Attempt) : list Step :=
  match a with
  | ConnectFailed => [StepConnect false]
  | SessionAccepted => [StepConnect true; StepLogin SessionAuth true]
  | BasicAccepted =>
      [StepConnect true; StepLogin SessionAuth false; StepLogin BasicAuth true]
  | BothRejected =>
      [StepConnect true; StepLogin SessionAuth false; StepLogin BasicAuth false;
       StepLogout]
  end.

(** Consecutive attempts, separated by the retry delay. *)
Fixpoint run_steps (delay : Z) (attempts : list Attempt) : list Step :=
  match attempts with
  | [] => []
  | a :: rest =>
      match rest with
      | [] => attempt_steps a
      | _ :: _ => attempt_steps a ++ StepSleep delay :: run_steps delay rest
      end
  end.

(** The outcome of [__enter__] that goes with the last attempt. *)
Definition enter_outcome (self : RedfishSession.t) (final : Attempt) : Exc Client :=
  match final with
  | ConnectFailed => Raise ConnectionError
  | SessionAccepted | BasicAccepted => Ok {| base_url := RedfishSession.self_ip self |}
  | BothRejected => Raise AuthenticationError
  end.

(** The state-changing requests of a trace: (address, path, reset type). *)
Definition post_of (ev : Event) : list (string * string * string) :=
  match ev with
  | EvIO ip (ReqPost path reset_type) _ _ => [(ip, path, reset_type)]
  | _ => []
  end.

Definition posts (evs : list Event) : list (string * string * string) :=
  flat_map post_of evs.

(** A state-changing request, and a login the device accepted. *)
Definition is_post (s : Step) : bool :=
  match s with
  | StepPost _ _ => true
  | _ => false
  end.

Definition is_accepted_login (s : Step) : bool :=
  match s with
  | StepLogin _ true => true
  | _ => false
  end.

(** Whether the device at [ip] is left with a login session: a login
    that returned opens one, a logout that returned closes it. *)
Definition session_after (ip : string) (open : bool) (ev : Event) : bool :=
  match ev with
  | EvIO ip' (ReqLogin _) (Returned _) _ => if String.eqb ip' ip then true else open
  | EvIO ip' ReqLogout (Returned _) _ => if String.eqb ip' ip then false else open
  | _ => open
  end.

Definition session_open (ip : string) (evs : list Event) : bool :=
  fold_left (session_after ip) evs false.

(** The labels of the probes a discovery call started, in order. *)
Definition tried_of (ev : Event) : list string :=
  match ev with
  | EvTried label => [label]
  | _ => []
  end.

Definition probes_tried (evs : list Event) : list string := flat_map tried_of evs.

(** The rows handed to the CSV sink. *)
Definition sink_of (ev : Event) : list (string * list Row) :=
  match ev with
  | EvSink path rows _ => [(path, rows)]
  | _ => []
  end.

Definition sink_writes (evs : list Event) : list (string * list Row) :=
  flat_map sink_of evs.

Definition sleep_of (ev : Event) : list Z :=
  match ev with
  | EvSleep secs => [secs]
  | _ => []
  end.

Definition sleeps (evs : list Event) : list Z := flat_map sleep_of evs.

(** The device at [address] reports power state [state]: every read of the
    system resource is answered with status 200 and a body that parses to
    an object whose ["PowerState"] is [state]. *)
Definition reports_power_state (env : Env) (address state : string) : Prop :=
  forall tr, exists r data,
    respond env tr address (ReqGet REDFISH_SYSTEM_PATH) = Returned (Some r)
    /\ status r = 200
    /\ text r <> ""
    /\ json_loads env (text r) = Ok (PyDict data)
    /\ dict_lookup "PowerState" data = Some (PyStr state).

(** The manager every call site builds: [RedfishSession(system)]. *)
Definition default_manager (system : System) : RedfishSession.t :=
  RedfishSession.__init__ system 3 2.

(** *** Discovery as the specification describes it

    A metric has an ordered list of candidate probes; a probe is a request
    to one endpoint followed by an extraction rule, and yields a value or
    nothing.  The tables below list the probes of the two metrics in the
    order in which [get_power_watts] and [get_cpu_utilization] declare
    them. *)
Record Probe : Type := {
  probe_label : string;               (* the name recorded when the probe starts *)
  probe_path : string;                (* the endpoint it requests first *)
  probe_run : M (option PyValue)
}.

Definition power_probes (client : Client) : list Probe :=
  [ {| probe_label := REDFISH_POWER_PATH;
       probe_path := REDFISH_POWER_PATH;
       probe_run := single_request_method client REDFISH_POWER_PATH power_extract_1 |};
    {| probe_label := REDFISH_POWER_SUBSYSTEM_METRICS_PATH;
       probe_path := REDFISH_POWER_SUBSYSTEM_METRICS_PATH;
       probe_run := single_request_method client REDFISH_POWER_SUBSYSTEM_METRICS_PATH
                      power_extract_2 |};
    {| probe_label := (REDFISH_SYSTEM_PATH ++ " (OEM Check)")%string;
       probe_path := REDFISH_SYSTEM_PATH;
       probe_run := single_request_method client REDFISH_SYSTEM_PATH power_extract_3 |} ].

Definition cpu_probes (client : Client) : list Probe :=
  [ {| probe_label := "System OEM Hpe/Hp";
       probe_path := REDFISH_SYSTEM_PATH;
       probe_run := single_request_method client REDFISH_SYSTEM_PATH cpu_extract_1 |};
    {| probe_label := "System Metrics";
       probe_path := REDFISH_SYSTEM_METRICS_PATH;
       probe_run := single_request_method client REDFISH_SYSTEM_METRICS_PATH cpu_extract_2 |};
    {| probe_label := "Processor Summary Metrics";
       probe_path := REDFISH_PROCESSOR_SUMMARY_METRICS_PATH;
       probe_run := single_request_method client REDFISH_PROCESSOR_SUMMARY_METRICS_PATH
                      cpu_extract_3 |};
    {| probe_label := "Individual Processors OEM";
       probe_path := REDFISH_PROCESSOR_COLLECTION_PATH;
       probe_run := cpu_method_4 client |};
    {| probe_label := "HPE Processor Collection";
       probe_path := REDFISH_HPE_PROCESSOR_COLLECTION_PATH;
       probe_run := single_request_method client REDFISH_HPE_PROCESSOR_COLLECTION_PATH
                      cpu_extract_5 |} ].

(** [discovery env probes tr v tr' tried]: starting from trace [tr], the
    probes are exercised in list order; each is recorded as tried and run;
    the first one that yields a value other than [None] gives the result
    [v] and ends the call, the later probes being left alone; the result
    is [None] only when the list has been gone through without a value. *)
Inductive discovery (env : Env) :
    list Probe -> Trace -> PyValue -> Trace -> list string -> Prop :=
| discovery_exhausted (tr : Trace) :
    discovery env [] tr PyNone tr []
| discovery_found (p : Probe) (rest : list Probe) (tr : Trace) (v : PyValue) (tr' : Trace) :
    probe_run p env (tr ++ [EvTried (probe_label p)]) = (Ok (Some v), tr') ->
    is_none v = false ->
    discovery env (p :: rest) tr v tr' [probe_label p]
| discovery_next (p : Probe) (rest : list Probe) (tr tr1 : Trace) (v : PyValue)
    (tr' : Trace) (tried : list string) :
    probe_run p env (tr ++ [EvTried (probe_label p)]) = (Ok None, tr1) ->
    discovery env rest tr1 v tr' tried ->
    discovery env (p :: rest) tr v tr' (probe_label p :: tried).

(** The row [monitor_power] hands to the sink for the float64 arrays
    [watts_values] and [cpu_values] of one tick. *)
Definition snapshot_row (timestamp : Z) (watts_values cpu_values : list Q)
    (total_servers : nat) : Row :=
  [ ("timestamp", CellTime timestamp);
    ("total_power_watts", CellFixed 2 (Qsum watts_values));
    ("avg_power_watts",
     CellFixed 2 (match watts_values with
                  | [] => 0%Q
                  | _ :: _ => (Qsum watts_values
                               / inject_Z (Z.of_nat (length watts_values)))%Q
                  end));
    ("avg_cpu_load",
     match cpu_values with
     | [] => CellStr "Unknown"
     | _ :: _ => CellFixed 2 (Qsum cpu_values / inject_Z (Z.of_nat (length cpu_values)))%Q
     end);
    ("valid_readings", CellInt (Z.of_nat (length watts_values)));
    ("total_servers", CellInt (Z.of_nat total_servers)) ].

(** The results of a tick that carry a power reading. *)
Definition with_power_reading (results : list Metrics) : list Metrics :=
  filter (fun r => negb (is_none (watts r))) results.

(** The timestamps of the ticks of a monitoring run, and the times the run
    announced for its next checks. *)
Definition tick_start_of (ev : Event) : list PyValue :=
  match ev with
  | EvPrint template (timestamp :: _) =>
      if String.eqb template
           "[{timestamp}] Checking metrics for {len(ilo_systems)} systems..."
      then [timestamp] else []
  | _ => []
  end.

Definition tick_starts (evs : list Event) : list PyValue := flat_map tick_start_of evs.

Definition announced_of (ev : Event) : list PyValue :=
  match ev with
  | EvPrint template (next_time :: _) =>
      if String.eqb template "Next check scheduled for: {next_time}"
      then [next_time] else []
  | _ => []
  end.

Definition announced_checks (evs : list Event) : list PyValue := flat_map announced_of evs.


(** ** Sample environments

    Concrete devices and library functions on which the properties below
    are exercised.  [json.loads] is a table from the bodies these devices
    send to the values they stand for. *)

Definition sample_loads (s : string) : Exc PyValue :=
  if String.eqb s "system: On" then Ok (PyDict [("PowerState", PyStr "On")])
  else if String.eqb s "system: Off" then Ok (PyDict [("PowerState", PyStr "Off")])
  else if String.eqb s "power: 120" then
    Ok (PyDict [("PowerControl",
                 PyList [PyDict [("PowerConsumedWatts", PyNum (inject_Z 120))]])])
  else if String.eqb s "metrics: 95" then
    Ok (PyDict [("PowerConsumedWatts", PyNum (inject_Z 95))])
  else if String.eqb s "false" then Ok (PyBool false)
  else Raise (Lib JSONDecodeError).

Definition sample_float (s : string) : Exc Q := Raise (Lib ValueError).

(** An environment around a given device behaviour; every library call
    takes [secs] seconds and the CSV file can always be written. *)
Definition sample_env (respond : Trace -> string -> Request -> Reply) (secs : Z) : Env :=
  {| json_loads := sample_loads;
     float_of_str := sample_float;
     respond := respond;
     latency := fun _ _ _ => secs;
     sink_accepts := fun _ _ => true |}.

Definition sample_system (address : string) : System :=
  {| ip := address; username := "Administrator"; password := "secret"; cluster := None |}.

Definition ok_response (body : string) : Reply :=
  Returned (Some {| status := 200; text := body |}).

Definition not_found : Reply :=
  Returned (Some {| status := 404; text := "" |}).

(** A device that cannot be reached: building the client always fails. *)
Definition unreachable_device : Trace -> string -> Request -> Reply :=
  fun _ _ _ => Raised RedfishConnectionError.

(** A device that accepts the connection and refuses every login. *)
Definition bad_credentials_device : Trace -> string -> Request -> Reply :=
  fun _ _ req =>
    match req with
    | ReqLogin _ => Raised (OtherError "InvalidCredentialsError")
    | _ => Returned None
    end.

(** A device that is reachable, accepts session logins, and serves the
    given body for the system resource and 404 for everything else. *)
Definition serving_device (system_body : option string) : Trace -> string -> Request -> Reply :=
  fun _ _ req =>
    match req with
    | ReqGet path =>
        if String.eqb path REDFISH_SYSTEM_PATH then
          match system_body with
          | Some body => ok_response body
          | None => Returned (Some {| status := 500; text := "" |})
          end
        else not_found
    | ReqPost _ _ => Returned (Some {| status := 200; text := "" |})
    | _ => Returned None
    end.

(** A healthy device: reachable, accepts session logins, reports state On,
    120 W on the first power probe and no CPU figure. *)
Definition healthy_device : Trace -> string -> Request -> Reply :=
  fun _ _ req =>
    match req with
    | ReqGet path =>
        if String.eqb path REDFISH_SYSTEM_PATH then ok_response "system: On"
        else if String.eqb path REDFISH_POWER_PATH then ok_response "power: 120"
        else not_found
    | ReqPost _ _ => Returned (Some {| status := 200; text := "" |})
    | _ => Returned None
    end.

(** A fleet of two: 10.0.0.1 is healthy, 10.0.0.2 cannot be reached. *)
Definition mixed_fleet : Trace -> string -> Request -> Reply :=
  fun tr address req =>
    if String.eqb address "10.0.0.2" then unreachable_device tr address req
    else healthy_device tr address req.

Definition sample_manager : RedfishSession.t :=
  RedfishSession.__init__ (sample_system "10.0.0.2") 3 2.

Definition healthy_target : System := sample_system "10.0.0.1".
Definition unreachable_target : System := sample_system "10.0.0.2".

(** A device whose first power probe finds nothing and whose second
    reports 95 W; the third power endpoint is never needed. *)
Definition second_probe_device : Trace -> string -> Request -> Reply :=
  fun _ _ req =>
    match req with
    | ReqGet path =>
        if String.eqb path REDFISH_POWER_SUBSYSTEM_METRICS_PATH
        then ok_response "metrics: 95"
        else not_found
    | _ => Returned None
    end.

(** A device that drops the connection on the first power probe and
    reports 95 W on the second. *)
Definition flaky_probe_device : Trace -> string -> Request -> Reply :=
  fun tr address req =>
    match req with
    | ReqGet path =>
        if String.eqb path REDFISH_POWER_PATH then Raised RedfishConnectionError
        else second_probe_device tr address req
    | _ => Returned None
    end.

From Stdlib Require DecimalZ DecimalPos.
From Stdlib Require Import Ascii.

(** ** Footprints

    [only P c]: whatever the environment and the trace it starts from, the
    computation [c] only appends events to the trace, and every event it
    appends satisfies [P]. *)
Definition only (P : Event -> bool) {A : Type} (c : M A) : Prop :=
  forall env tr, exists r evs, c env tr = (r, tr ++ evs) /\ forallb P evs = true.

(** The footprint of reading from the device a client is bound to: GET
    requests to that address, the record of the probes tried, and output. *)
Definition reads_from (address : string) (ev : Event) : bool :=
  match ev with
  | EvIO ip (ReqGet _) _ _ => String.eqb ip address
  | EvTried _ => true
  | EvPrint _ _ => true
  | _ => false
  end.

(** The footprint of the session manager on one device: building the
    client, logging in and out, waiting between attempts, and output. *)
Definition session_protocol (address : string) (ev : Event) : bool :=
  match ev with
  | EvIO ip ReqConnect _ _ => String.eqb ip address
  | EvIO ip (ReqLogin _) _ _ => String.eqb ip address
  | EvIO ip ReqLogout _ _ => String.eqb ip address
  | EvSleep _ => true
  | EvPrint _ _ => true
  | _ => false
  end.

(** Everything but a state-changing request and a write to the sink. *)
Definition observes (ev : Event) : bool :=
  match ev with
  | EvIO _ (ReqPost _ _) _ _ => false
  | EvSink _ _ _ => false
  | _ => true
  end.

(** Everything but a state-changing request. *)
Definition read_only (ev : Event) : bool :=
  match ev with
  | EvIO _ (ReqPost _ _) _ _ => false
  | _ => true
  end.

(** ** The [--get-cpu] batch command *)

(** [get_cpu(system)], the worker of the [--get-cpu] branch of [main],
    lines 1944-1962.  The reading is printed with [f"{cpu:.1f}%"] inside
    the [try], before it is returned. *)
Definition get_cpu (system : System) : M PyValue :=
  try_except
    (with_session system (fun client =>
       id_model <- get_system_identifier client ;;
       cpu <- get_cpu_utilization client (ip system) (fst id_model) ;;
       if is_none cpu then ret PyNone
       else
         lift (format_fixed cpu) ;;
         print "{ip}: {cpu:.1f}%" [PyStr (ip system); cpu] ;;
         ret cpu))
    (fun e =>
       match e with
       | ConnectionError | AuthenticationError => ret PyNone
       | _ =>
           print "Error getting CPU in thread for {ip}: {e}" [PyStr (ip system)] ;;
           ret PyNone
       end).

(** Lines 1943-1967: the fan-out of the command and the float64 array of
    the readings that are not [None]. *)
Definition get_cpu_readings (ilo_systems : list System) (workers : Z)
    : M (list PyValue * list Q) :=
  results <- executor_map workers get_cpu ilo_systems ;;
  valid_results <- np_array_float64 (not_none results) ;;
  ret (results, valid_results).

(** The reset type each entry point of the controller puts in its request:
    line 1158 for power on, line 1194 for power off. *)
Definition requested_reset (desired : DesiredState) (force : bool) : string :=
  match desired with
  | DesiredOn => "On"
  | DesiredOff => if force then "ForceOff" else "GracefulShutdown"
  end.


(** A reading that the float64 conversion and the [.1f] format accept, or
    no reading. *)
Definition none_or_number (v : PyValue) : bool :=
  (is_none v || isinstance_number v)%bool.

(** What a monitoring run may leave in the trace: no state-changing
    request, and no write to the sink other than one row appended to the
    file the run was given. *)
Definition monitoring_footprint (output_csv : string) (ev : Event) : bool :=
  match ev with
  | EvIO _ (ReqPost _ _) _ _ => false
  | EvSink path rows _ => (String.eqb path output_csv && (length rows =? 1)%nat)%bool
  | _ => true
  end.

(** ** Code that fills in a local dictionary

    [get_system_metrics_detailed] builds its result by assigning to the
    entries of a dictionary inside a [try]; what was assigned before an
    exception stays in the dictionary that is returned.  [Upd S A] threads
    the dictionary through the calls and hands it back on both exits. *)
Definition Upd (S A : Type) : Type := S -> Env -> Trace -> Exc A * S * Trace.

Definition upd_ret {S A} (a : A) : Upd S A := fun s _ tr => (Ok a, s, tr).

Definition upd_bind {S A B} (c : Upd S A) (k : A -> Upd S B) : Upd S B :=
  fun s env tr =>
    match c s env tr with
    | (Ok a, s', tr') => k a s' env tr'
    | (Raise e, s', tr') => (Raise e, s', tr')
    end.

(** A call that does not touch the dictionary. *)
Definition call {S A} (c : M A) : Upd S A :=
  fun s env tr =>
    match c env tr with
    | (r, tr') => (r, s, tr')
    end.

(** Reading the dictionary, and assigning to one of its entries. *)
Definition current {S} : Upd S S := fun s _ tr => (Ok s, s, tr).

Definition assign {S} (f : S -> S) : Upd S unit := fun s _ tr => (Ok tt, f s, tr).

Declare Scope upd_scope.
Delimit Scope upd_scope with upd.
Notation "x <- c ;; k" := (upd_bind c (fun x => k))
  (at level 100, c at next level, right associativity) : upd_scope.
Notation "c ;; k" := (upd_bind c (fun _ => k))
  (at level 100, right associativity) : upd_scope.

(** [try: body  except Exception as e: handler(e)], and then the
    dictionary as the [try] statement left it. *)
Definition upd_try {S} (body : Upd S unit) (handler : PyExn -> M unit) (s : S) : M S :=
  fun env tr =>
    match body s env tr with
    | (Ok _, s', tr') => (Ok s', tr')
    | (Raise e, s', tr') => (handler e ;; ret s') env tr'
    end.

(** [keeps P R c]: the code [c] only appends events that satisfy [P], and
    leaves the dictionary related by [R] to the one it started from. *)
Definition keeps {S A : Type} (P : Event -> bool) (R : S -> S -> Prop) (c : Upd S A) : Prop :=
  forall s env tr, exists r s' evs,
    c s env tr = (r, s', tr ++ evs) /\ forallb P evs = true /\ R s s'.

(** ** The worker of [monitor_full] *)

Module Detailed.

(** [result = {'ip': ip, 'watts': None, 'cpu_load': None,
    'system_usage': None}], line 1388. *)
Record t : Type := {
  ip : string;
  watts : PyValue;
  cpu_load : PyValue;
  system_usage : PyValue
}.

Definition set_watts (v : PyValue) (result : t) : t :=
  {| ip := ip result; watts := v; cpu_load := cpu_load result;
     system_usage := system_usage result |}.

Definition set_cpu_load (v : PyValue) (result : t) : t :=
  {| ip := ip result; watts := watts result; cpu_load := v;
     system_usage := system_usage result |}.

Definition set_system_usage (v : PyValue) (result : t) : t :=
  {| ip := ip result; watts := watts result; cpu_load := cpu_load result;
     system_usage := v |}.

End Detailed.

(** Lines 1403-1428: the CPU load taken from the OEM part of the system
    resource, with [get_cpu_utilization] as the fallback. *)
Definition detailed_cpu (client : Client) (address : string) (identifier : PyValue)
    : Upd Detailed.t unit :=
  (sys_resp <- call (client_get client REDFISH_SYSTEM_PATH) ;;
   sys_data <- call (safe_get_json sys_resp) ;;
   has_oem <- call (lift (exc_and (Ok (truthy sys_data)) (py_in "Oem" sys_data))) ;;
   (if has_oem : bool then
      hpe_data <- call (lift (oem_hpe sys_data)) ;;
      has_usage <- call (lift (exc_and (Ok (truthy hpe_data))
                                       (py_in "SystemUsage" hpe_data))) ;;
      (if has_usage : bool then
         usage <- call (lift (py_getitem hpe_data "SystemUsage")) ;;
         assign (Detailed.set_system_usage usage) ;;
         has_util <- call (lift (py_in "CPUUtil" usage)) ;;
         if has_util : bool then
           util <- call (lift (py_get usage "CPUUtil")) ;;
           assign (Detailed.set_cpu_load util)
         else upd_ret tt
       else upd_ret tt) ;;
      result <- current ;;
      direct <- call (lift (exc_and (Ok (is_none (Detailed.cpu_load result)))
                              (exc_and (Ok (truthy hpe_data))
                                       (py_in "ProcessorUtilization" hpe_data)))) ;;
      if direct : bool then
        util <- call (lift (py_get hpe_data "ProcessorUtilization")) ;;
        assign (Detailed.set_cpu_load util)
      else upd_ret tt
    else upd_ret tt) ;;
   result <- current ;;
   if is_none (Detailed.cpu_load result) then
     cpu <- call (get_cpu_utilization client address identifier) ;;
     assign (Detailed.set_cpu_load cpu)
   else upd_ret tt)%upd.

(** Lines 1430-1452: the line printed for the target.  [cpu_str] is built
    with the [.1f] format; the usage summary is text computed from the
    [system_usage] entry by operations that cannot fail. *)
Definition detailed_report (address : string) : Upd Detailed.t unit :=
  (result <- current ;;
   (if is_none (Detailed.cpu_load result) then upd_ret tt
    else call (lift (format_fixed (Detailed.cpu_load result)))) ;;
   call (print "{ip}: {watts_str}, {cpu_str}{usage_str}"
           [PyStr address; Detailed.watts result; Detailed.cpu_load result;
            Detailed.system_usage result]))%upd.

(** The body of the [try], lines 1398-1452. *)
Definition detailed_body (client : Client) (address : string) : Upd Detailed.t unit :=
  (id_model <- call (get_system_identifier client) ;;
   let identifier := fst id_model in
   w <- call (get_power_watts client address identifier) ;;
   assign (Detailed.set_watts w) ;;
   detailed_cpu client address identifier ;;
   detailed_report address)%upd.

(** [get_system_metrics_detailed(system, debug)], lines 1385-1459.  The
    [with] statement is outside the [try]: what [__enter__] raises leaves
    the function. *)
Definition get_system_metrics_detailed (system : System) : M Detailed.t :=
  let result :=
    {| Detailed.ip := ip system; Detailed.watts := PyNone;
       Detailed.cpu_load := PyNone; Detailed.system_usage := PyNone |} in
  with_session system (fun client =>
    upd_try (detailed_body client (ip system))
      (fun e => print "Error getting detailed metrics for {ip}: {e}" [PyStr (ip system)])
      result).

(** The address and the power reading of a result are left as they were. *)
Definition same_reading (before after : Detailed.t) : Prop :=
  Detailed.ip after = Detailed.ip before
  /\ Detailed.watts after = Detailed.watts before.

(** ** Sorting key for addresses *)

(** [s.split(sep)] for a separator of one character: the pieces between
    the occurrences of the separator, empty pieces included. *)
Fixpoint split (sep : Ascii.ascii) (s : string) : list string :=
  match s with
  | EmptyString => [EmptyString]
  | String c rest =>
      if Ascii.eqb c sep then EmptyString :: split sep rest
      else
        match split sep rest with
        | piece :: pieces => String c piece :: pieces
        | [] => [String c EmptyString]
        end
  end.

Section SortKey.

(** [int(octet)] for a string. *)
Variable py_int : string -> Exc Z.

(** [sort_ip_address_key(ip_str)], lines 1623-1630.  The key is a tuple of
    integers; a value without [split] raises [AttributeError], which is
    handled like the [ValueError] of [int]. *)
Definition sort_ip_address_key (ip_str : PyValue) : Exc (list Z) :=
  exc_try
    (match ip_str with
     | PyStr s => exc_map py_int (split "."%char s)
     | _ => Raise AttributeError
     end)
    (fun e =>
       match e with
       | Lib ValueError | Lib AttributeError => Ok [0; 0; 0; 0]
       | _ => Raise e
       end).

End SortKey.

(** An address written as decimal numbers separated by dots. *)
Definition dotted (octets : list Z) : string :=
  String.concat "." (map str_of_int octets).

(** A string without a dot. *)
Fixpoint no_dot (s : string) : bool :=
  match s with
  | EmptyString => true
  | String c rest => (negb (Ascii.eqb c "."%char) && no_dot rest)%bool
  end.

(** Reading a decimal numeral, as [int] does on the digits of an octet. *)
Definition decimal_int (s : string) : Exc Z :=
  match NilZero.int_of_string s with
  | Some d => Ok (Z.of_int d)
  | None => Raise ValueError
  end.
(** * Properties *)

(** ** The shared parser *)

Lemma str_empty_true (s : string) : str_empty s = true <-> s = "".
Proof. destruct s; simpl; split; intros H; congruence. Qed.

(** C10. [_safe_get_json] is total: whatever the response and whatever
    [json.loads] does, it returns a value and never raises.  It returns
    [None] for an absent response, a status other than 200, an empty body
    and a body [json.loads] rejects; otherwise it returns the parsed value
    when that value is truthy, and the empty dictionary when the parsed
    value is null or empty in Python's sense (falsy: [null], [false], [0],
    and the empty string, array and object). *)
Theorem safe_get_json_total (loads : string -> Exc PyValue) (response : option Response) :
  (exists v, _safe_get_json loads response = Ok v)
  /\ (response = None -> _safe_get_json loads response = Ok PyNone)
  /\ (forall r, response = Some r -> status r <> 200 ->
        _safe_get_json loads response = Ok PyNone)
  /\ (forall r, response = Some r -> status r = 200 -> text r = "" ->
        _safe_get_json loads response = Ok PyNone)
  /\ (forall r e, response = Some r -> status r = 200 -> text r <> "" ->
        loads (text r) = Raise e ->
        _safe_get_json loads response = Ok PyNone)
  /\ (forall r data, response = Some r -> status r = 200 -> text r <> "" ->
        loads (text r) = Ok data -> truthy data = true ->
        _safe_get_json loads response = Ok data)
  /\ (forall r data, response = Some r -> status r = 200 -> text r <> "" ->
        loads (text r) = Ok data -> truthy data = false ->
        _safe_get_json loads response = Ok (PyDict [])).
Proof.
  assert (Hne : forall s, s <> "" -> str_empty s = false).
  { intros s Hs. destruct (str_empty s) eqn:E; [apply str_empty_true in E; contradiction | reflexivity]. }
  repeat split.
  - destruct response as [r|]; simpl; [|eauto].
    destruct (status r =? 200); simpl; [|eauto].
    destruct (str_empty (text r)); [eauto|].
    destruct (loads (text r)) as [data|e]; simpl.
    + eauto.
    + destruct e as [[]| |]; eauto.
  - intros ->. reflexivity.
  - intros r -> Hs. simpl.
    destruct (Z.eqb_spec (status r) 200); [contradiction | reflexivity].
  - intros r -> Hs Ht. simpl. rewrite Hs, Ht. reflexivity.
  - intros r e -> Hs Ht Hl. simpl. rewrite Hs, (Hne _ Ht), Hl. simpl.
    destruct e as [[]| |]; reflexivity.
  - intros r data -> Hs Ht Hl Hd. simpl. rewrite Hs, (Hne _ Ht), Hl. simpl.
    rewrite Hd. reflexivity.
  - intros r data -> Hs Ht Hl Hd. simpl. rewrite Hs, (Hne _ Ht), Hl. simpl.
    rewrite Hd. reflexivity.
Qed.

(** ** Session manager *)

Ltac run_m :=
  unfold bind, try_except, finally, ret, raise, lift, print, tried, emit,
    client_get, client_post, safe_get_json in *.

Lemma app_one_assoc {A} (l : list A) (x : A) (l' : list A) :
  (l ++ [x]) ++ l' = l ++ x :: l'.
Proof. rewrite <- app_assoc. reflexivity. Qed.

Lemma steps_app (evs1 evs2 : list Event) :
  steps (evs1 ++ evs2) = steps evs1 ++ steps evs2.
Proof. unfold steps. apply flat_map_app. Qed.

(** A library call appends exactly one event, which records the reply. *)
Lemma io_cases (ip : string) (req : Request) (env : Env) (tr : Trace) :
  (exists r secs, io ip req env tr = (Ok r, tr ++ [EvIO ip req (Returned r) secs]))
  \/ (exists e secs, io ip req env tr = (Raise (Lib e), tr ++ [EvIO ip req (Raised e) secs])).
Proof.
  unfold io. destruct (respond env tr ip req); [left | right]; eauto.
Qed.

Ltac step_io :=
  match goal with
  | |- context [io ?ip ?req ?env ?tr] =>
      let r := fresh "r" in
      let e := fresh "e" in
      let secs := fresh "secs" in
      let Hio := fresh "Hio" in
      destruct (io_cases ip req env tr) as [(r & secs & Hio)|(e & secs & Hio)];
      rewrite Hio; clear Hio
  end.

(** One attempt either fails to build the client, with a library error, or
    ends in one of the three ways the two logins allow. *)
Lemma attempt_shape (self : RedfishSession.t) (env : Env) (tr : Trace) :
  exists evs,
    (exists e, RedfishSession.attempt self env tr = (Raise (Lib e), tr ++ evs)
               /\ steps evs = attempt_steps ConnectFailed)
    \/ (exists a, a <> ConnectFailed
                  /\ RedfishSession.attempt self env tr = (enter_outcome self a, tr ++ evs)
                  /\ steps evs = attempt_steps a).
Proof.
  unfold RedfishSession.attempt. run_m.
  step_io.
  2:{ eexists. left. eexists. split; reflexivity. }
  step_io.
  { eexists. right. exists SessionAccepted. split; [discriminate|].
    rewrite app_one_assoc. split; reflexivity. }
  step_io.
  { eexists. right. exists BasicAccepted. split; [discriminate|].
    rewrite !app_one_assoc. split; reflexivity. }
  step_io; eexists; right; exists BothRejected; (split; [discriminate|]);
    rewrite !app_one_assoc; split; reflexivity.
Qed.

Lemma run_steps_cons (delay : Z) (a : Attempt) (rest : list Attempt) :
  rest <> [] ->
  run_steps delay (a :: rest) = attempt_steps a ++ StepSleep delay :: run_steps delay rest.
Proof. destruct rest; [congruence | reflexivity]. Qed.

Lemma enter_loop_shape (self : RedfishSession.t) :
  0 <= RedfishSession.retry_delay self ->
  forall remaining retries env tr,
    0 <= retries <= RedfishSession.max_retries self ->
    Z.of_nat remaining = RedfishSession.max_retries self + 1 - retries ->
    exists evs n final,
      RedfishSession.enter_loop self remaining retries env tr
        = (enter_outcome self final, tr ++ evs)
      /\ Z.of_nat n <= RedfishSession.max_retries self - retries
      /\ steps evs
         = run_steps (RedfishSession.retry_delay self) (repeat ConnectFailed n ++ [final])
      /\ (final = ConnectFailed -> Z.of_nat n = RedfishSession.max_retries self - retries).
Proof.
  intros Hdelay. induction remaining as [|k IH]; intros retries env tr Hr Hrem.
  { lia. }
  cbn [RedfishSession.enter_loop]. unfold try_except at 1.
  destruct (attempt_shape self env tr) as [evs [(e & Hrun & Hsteps)|(a & Ha & Hrun & Hsteps)]];
    rewrite Hrun.
  - assert (Hretry : forall template args,
      exists evs' n final,
        (if retries >=? RedfishSession.max_retries self
         then print template args ;; raise ConnectionError
         else sleep (RedfishSession.retry_delay self) ;;
              RedfishSession.enter_loop self k (retries + 1)) env (tr ++ evs)
          = (enter_outcome self final, tr ++ evs')
        /\ Z.of_nat n <= RedfishSession.max_retries self - retries
        /\ steps evs'
           = run_steps (RedfishSession.retry_delay self) (repeat ConnectFailed n ++ [final])
        /\ (final = ConnectFailed -> Z.of_nat n = RedfishSession.max_retries self - retries)).
    { intros template args.
      destruct (Z.geb_spec retries (RedfishSession.max_retries self)) as [Hge|Hlt].
      - exists (evs ++ [EvPrint template args]), 0%nat, ConnectFailed. run_m.
        rewrite app_assoc.
        repeat split; try (simpl; lia).
        rewrite steps_app, Hsteps. reflexivity.
      - unfold sleep.
        destruct (Z.ltb_spec (RedfishSession.retry_delay self) 0) as [Hneg|_]; [lia|].
        run_m.
        destruct (IH (retries + 1) env ((tr ++ evs) ++ [EvSleep (RedfishSession.retry_delay self)]))
          as (evs' & n & final & Hloop & Hn & Hst & Hfin); [lia | lia |].
        exists (evs ++ EvSleep (RedfishSession.retry_delay self) :: evs'), (S n), final.
        rewrite Hloop, app_one_assoc, app_assoc.
        repeat split; try lia.
        + rewrite steps_app, Hsteps. cbn [repeat app].
          rewrite run_steps_cons by (destruct n; discriminate).
          cbn [steps flat_map step_of app] in *. rewrite <- Hst. reflexivity.
        + intros Hf. specialize (Hfin Hf). lia. }
    destruct e; apply Hretry.
  - exists evs, 0%nat, a.
    destruct a; try contradiction; cbn [enter_outcome] in *;
      (split; [reflexivity | split; [simpl; lia | split; [assumption | discriminate]]]).
Qed.

(** C4. Opening a session makes at most [max_retries + 1] attempts,
    separated by the fixed [retry_delay]; within an attempt session auth is
    tried before basic auth; every attempt but the last failed at the
    connection level and consumed one retry; an attempt in which both auth
    modes are refused ends the run at once with [AuthenticationError],
    whatever retries are left; and the run ends with [ConnectionError] only
    on a connection failure that finds all [max_retries] retries consumed. *)
Theorem session_open_retry_policy (self : RedfishSession.t) (env : Env) (tr : Trace) :
  0 <= RedfishSession.max_retries self ->
  0 <= RedfishSession.retry_delay self ->
  exists evs retries final,
    let attempts := repeat ConnectFailed retries ++ [final] in
    RedfishSession.__enter__ self env tr = (enter_outcome self final, tr ++ evs)
    /\ steps evs = run_steps (RedfishSession.retry_delay self) attempts
    /\ Z.of_nat (length attempts) <= RedfishSession.max_retries self + 1
    /\ (final = ConnectFailed -> Z.of_nat retries = RedfishSession.max_retries self).
Proof.
  intros Hmax Hdelay. unfold RedfishSession.__enter__.
  destruct (enter_loop_shape self Hdelay
              (Z.to_nat (RedfishSession.max_retries self + 1)) 0 env tr)
    as (evs & n & final & Hrun & Hn & Hsteps & Hfin); [lia | lia |].
  exists evs, n, final. cbv zeta.
  repeat split; try assumption.
  - rewrite length_app, repeat_length. simpl. lia.
  - intros Hf. specialize (Hfin Hf). lia.
Qed.

Lemma posts_app (evs1 evs2 : list Event) :
  posts (evs1 ++ evs2) = posts evs1 ++ posts evs2.
Proof. unfold posts. apply flat_map_app. Qed.

Lemma posts_nil_of_steps (evs : list Event) :
  existsb is_post (steps evs) = false -> posts evs = [].
Proof.
  induction evs as [|ev evs IH]; [reflexivity|].
  change (ev :: evs) with ([ev] ++ evs). rewrite steps_app, posts_app, existsb_app.
  intros H. apply orb_false_iff in H. destruct H as [H1 H2].
  rewrite (IH H2), app_nil_r.
  destruct ev as [ip0 [| | | |] rep secs| | | |]; try reflexivity; discriminate.
Qed.

(** The events of [__enter__], without assumptions on the manager: no
    state-changing request; a run that raises has seen no login accepted;
    a run that returns hands out the client of the manager's address. *)
Lemma enter_loop_events (self : RedfishSession.t) (remaining : nat) :
  forall retries env tr,
  exists evs r,
    RedfishSession.enter_loop self remaining retries env tr = (r, tr ++ evs)
    /\ existsb is_post (steps evs) = false
    /\ (forall e, r = Raise e -> existsb is_accepted_login (steps evs) = false)
    /\ (forall c, r = Ok c -> c = {| base_url := RedfishSession.self_ip self |}).
Proof.
  induction remaining as [|k IH]; intros retries env tr.
  { cbn [RedfishSession.enter_loop]. run_m. eexists [_], _.
    split; [reflexivity|]. repeat split; intros; try reflexivity; discriminate. }
  cbn [RedfishSession.enter_loop]. unfold try_except at 1.
  destruct (attempt_shape self env tr) as [evs [(e & Hrun & Hsteps)|(a & Ha & Hrun & Hsteps)]];
    rewrite Hrun.
  - assert (Hretry : forall template args,
      exists evs' r,
        (if retries >=? RedfishSession.max_retries self
         then print template args ;; raise ConnectionError
         else sleep (RedfishSession.retry_delay self) ;;
              RedfishSession.enter_loop self k (retries + 1)) env (tr ++ evs)
          = (r, tr ++ evs')
        /\ existsb is_post (steps evs') = false
        /\ (forall e, r = Raise e -> existsb is_accepted_login (steps evs') = false)
        /\ (forall c, r = Ok c -> c = {| base_url := RedfishSession.self_ip self |})).
    { intros template args.
      destruct (retries >=? RedfishSession.max_retries self).
      - exists (evs ++ [EvPrint template args]), (Raise ConnectionError). run_m.
        rewrite app_assoc, steps_app, Hsteps.
        repeat split; intros; try reflexivity; discriminate.
      - unfold sleep. destruct (RedfishSession.retry_delay self <? 0).
        + exists evs, (Raise (Lib ValueError)). run_m. rewrite Hsteps.
          repeat split; intros; try reflexivity; discriminate.
        + run_m.
          destruct (IH (retries + 1) env ((tr ++ evs) ++ [EvSleep (RedfishSession.retry_delay self)]))
            as (evs' & r & Hloop & Hp & Hl & Hc).
          exists (evs ++ EvSleep (RedfishSession.retry_delay self) :: evs'), r.
          rewrite Hloop, app_one_assoc, app_assoc.
          change (EvSleep (RedfishSession.retry_delay self) :: evs')
            with ([EvSleep (RedfishSession.retry_delay self)] ++ evs').
          rewrite !steps_app, Hsteps, !existsb_app, Hp.
          repeat split; try reflexivity; assumption. }
    destruct e; apply Hretry.
  - exists evs. rewrite Hsteps.
    destruct a; try contradiction; cbn [enter_outcome];
      eexists; (split; [reflexivity|]);
      repeat split; intros; try reflexivity; try discriminate; congruence.
Qed.

Lemma session_open_after_logout (address : string) (evs : list Event)
    (r : option Response) (secs : Z) :
  session_open address (evs ++ [EvIO address ReqLogout (Returned r) secs]) = false.
Proof.
  unfold session_open. rewrite fold_left_app. simpl.
  rewrite String.eqb_refl. reflexivity.
Qed.

(** C9. The session of a [with] block is scoped.  When [__enter__]
    raises, the block raises the same exception and no login was accepted,
    so no session was established.  When [__enter__] returns, then whatever
    the body does, return or raise, the block ends by sending the logout
    and passes the body's outcome on; once the device has answered that
    logout, no session is open on it. *)
Theorem session_scope_logs_out {A : Type} (self : RedfishSession.t)
    (body : Client -> M A) (env : Env) (tr : Trace) :
  (forall e tr1,
      RedfishSession.__enter__ self env tr = (Raise e, tr1) ->
      with_manager self body env tr = (Raise e, tr1)
      /\ exists evs, tr1 = tr ++ evs
                     /\ existsb is_accepted_login (steps evs) = false)
  /\ (forall client tr1 outcome tr2,
      RedfishSession.__enter__ self env tr = (Ok client, tr1) ->
      body client env tr1 = (outcome, tr2) ->
      exists rep secs,
        with_manager self body env tr
          = (outcome, tr2 ++ [EvIO (RedfishSession.self_ip self) ReqLogout rep secs])
        /\ (replied rep = true ->
            forall evs,
              session_open (RedfishSession.self_ip self)
                (evs ++ [EvIO (RedfishSession.self_ip self) ReqLogout rep secs]) = false)).
Proof.
  split.
  - intros e tr1 Henter. unfold with_manager, bind. rewrite Henter.
    split; [reflexivity|].
    unfold RedfishSession.__enter__ in Henter.
    destruct (enter_loop_events self (Z.to_nat (RedfishSession.max_retries self + 1)) 0 env tr)
      as (evs & r & Hrun & _ & Hl & _).
    rewrite Hrun in Henter. inversion Henter; subst.
    exists evs. split; [reflexivity | eauto].
  - intros client tr1 outcome tr2 Henter Hbody.
    unfold with_manager, bind. rewrite Henter.
    unfold finally. rewrite Hbody.
    unfold RedfishSession.__exit__. run_m.
    step_io; eexists _, _; (split; [reflexivity|]).
    + intros _ evs. apply session_open_after_logout.
    + discriminate.
Qed.

(** ** Power state controller *)

Ltac case_matches :=
  repeat match goal with
         | |- context [match ?x with _ => _ end] => destruct x eqn:?
         end.

Lemma get_power_status_events (client : Client) (address : string) (env : Env) (tr : Trace) :
  exists evs r,
    get_power_status client address env tr = (r, tr ++ evs)
    /\ existsb is_post (steps evs) = false.
Proof.
  unfold get_power_status. run_m. step_io.
  - destruct (_safe_get_json (json_loads env) r) as [data|e0]; cbn iota beta.
    + destruct r as [resp|]; case_matches; eexists [_], _; split; reflexivity.
    + eexists [_], _; split; reflexivity.
  - eexists [_], _; split; reflexivity.
Qed.

Lemma enter_events (system : System) (env : Env) (tr : Trace) :
  exists evs r,
    RedfishSession.__enter__ (default_manager system) env tr = (r, tr ++ evs)
    /\ posts evs = []
    /\ (forall c, r = Ok c -> c = {| base_url := ip system |}).
Proof.
  unfold RedfishSession.__enter__.
  destruct (enter_loop_events (default_manager system)
              (Z.to_nat (RedfishSession.max_retries (default_manager system) + 1)) 0 env tr)
    as (evs & r & Hrun & Hp & _ & Hc).
  exists evs, r. split; [exact Hrun|]. split; [apply posts_nil_of_steps, Hp | exact Hc].
Qed.

Lemma exit_events (self : RedfishSession.t) (env : Env) (tr : Trace) :
  exists rep secs,
    RedfishSession.__exit__ self env tr
      = (Ok tt, tr ++ [EvIO (RedfishSession.self_ip self) ReqLogout rep secs]).
Proof.
  unfold RedfishSession.__exit__. run_m. step_io; eexists _, _; reflexivity.
Qed.

(** When the state read back is the state asked for, the controller
    reports success and the call has sent no state-changing request. *)
Lemma ensure_state_already (system : System) (desired : DesiredState) (force : bool)
    (env : Env) (tr : Trace) (client : Client) (tr1 tr2 : Trace) :
  RedfishSession.__enter__ (default_manager system) env tr = (Ok client, tr1) ->
  get_power_status client (ip system) env tr1 = (Ok (PyStr (state_name desired)), tr2) ->
  exists evs,
    ensureState system desired force env tr = (Ok true, tr ++ evs)
    /\ posts evs = [].
Proof.
  intros Henter Hread.
  destruct (enter_events system env tr) as (evs1 & r1 & Hr1 & Hp1 & _).
  rewrite Henter in Hr1. inversion Hr1; subst tr1. clear Hr1.
  destruct (get_power_status_events client (ip system) env (tr ++ evs1))
    as (evs2 & r2 & Hr2 & Hp2).
  rewrite Hread in Hr2. inversion Hr2; subst tr2. clear Hr2.
  apply posts_nil_of_steps in Hp2.
  destruct desired; cbn [ensureState state_name] in *;
    unfold power_on_system, power_off_system, with_session, with_manager;
    fold (default_manager system);
    unfold bind at 1; rewrite Henter;
    unfold finally, bind at 1; rewrite Hread;
    cbn [py_eq_str is_str_eq String.eqb Ascii.eqb Bool.eqb];
    run_m;
    match goal with
    | |- context [RedfishSession.__exit__ ?s env ?t] =>
        destruct (exit_events s env t) as (rep & secs & Hexit); rewrite Hexit
    end;
    rewrite !app_one_assoc, <- !app_assoc;
    (eexists; split; [reflexivity|]);
    rewrite !posts_app, Hp1, Hp2; reflexivity.
Qed.

Lemma io_returned (address : string) (req : Request) (env : Env) (tr : Trace)
    (r : option Response) :
  respond env tr address req = Returned r ->
  io address req env tr
    = (Ok r, tr ++ [EvIO address req (Returned r) (latency env tr address req)]).
Proof. intros H. unfold io. rewrite H. reflexivity. Qed.

Lemma get_power_status_reported (env : Env) (address label state : string) :
  reports_power_state env address state ->
  forall tr, exists evs,
    get_power_status {| base_url := address |} label env tr = (Ok (PyStr state), tr ++ evs).
Proof.
  intros Hrep tr.
  destruct (Hrep tr) as (r & data & Hresp & Hst & Htx & Hload & Hlook).
  unfold get_power_status. run_m. cbn [base_url].
  rewrite (io_returned _ _ _ _ _ Hresp).
  unfold _safe_get_json. rewrite Hst. cbn [Z.eqb Pos.eqb negb].
  destruct (str_empty (text r)) eqn:Hempty; [apply str_empty_true in Hempty; contradiction|].
  rewrite Hload. cbn [exc_bind exc_try].
  destruct data as [|entry data]; [discriminate|].
  cbn [truthy is_none py_get_default andb]. rewrite Hlook.
  eexists. reflexivity.
Qed.

Lemma ensure_state_reported (system : System) (desired : DesiredState) (force : bool)
    (env : Env) :
  reports_power_state env (ip system) (state_name desired) ->
  forall tr, exists outcome evs,
    ensureState system desired force env tr = (outcome, tr ++ evs)
    /\ posts evs = []
    /\ (forall client tr1,
          RedfishSession.__enter__ (default_manager system) env tr = (Ok client, tr1) ->
          outcome = Ok true).
Proof.
  intros Hrep tr.
  destruct (enter_events system env tr) as (evs1 & r1 & Hr1 & Hp1 & Hc).
  destruct r1 as [c|e].
  - rewrite (Hc c eq_refl) in *.
    destruct (get_power_status_reported env (ip system) (ip system) _ Hrep (tr ++ evs1))
      as (evs2 & Hread).
    destruct (ensure_state_already system desired force env tr _ _ _ Hr1 Hread)
      as (evs & Hrun & Hp).
    exists (Ok true), evs. repeat split; assumption.
  - exists (Raise e), evs1. split; [|split; [assumption|]].
    + destruct desired; cbn [ensureState];
        unfold power_on_system, power_off_system, with_session, with_manager;
        fold (default_manager system); unfold bind at 1; rewrite Hr1; reflexivity.
    + intros client tr1 Henter. rewrite Henter in Hr1. discriminate.
Qed.

(** C2. The power controller is idempotent.  When the state read from the
    device is already the desired one, the call returns success and sends
    no state-changing request.  Hence on a device that reports the desired
    state, two calls in a row send no such request at all (at most one, as
    the claim has it), and the second call, once its session is open,
    answers success. *)
Theorem ensure_state_idempotent (system : System) (desired : DesiredState) (force : bool)
    (env : Env) (tr : Trace) :
  (forall client tr1 tr2,
      RedfishSession.__enter__ (default_manager system) env tr = (Ok client, tr1) ->
      get_power_status client (ip system) env tr1
        = (Ok (PyStr (state_name desired)), tr2) ->
      exists evs,
        ensureState system desired force env tr = (Ok true, tr ++ evs)
        /\ posts evs = [])
  /\ (reports_power_state env (ip system) (state_name desired) ->
      exists first evs1 second evs2,
        ensureState system desired force env tr = (first, tr ++ evs1)
        /\ ensureState system desired force env (tr ++ evs1) = (second, (tr ++ evs1) ++ evs2)
        /\ (length (posts (evs1 ++ evs2)) <= 1)%nat
        /\ (forall client tr1,
              RedfishSession.__enter__ (default_manager system) env (tr ++ evs1)
                = (Ok client, tr1) ->
              second = Ok true)).
Proof.
  split.
  - intros client tr1 tr2. apply ensure_state_already.
  - intros Hrep.
    destruct (ensure_state_reported system desired force env Hrep tr)
      as (first & evs1 & Hrun1 & Hp1 & _).
    destruct (ensure_state_reported system desired force env Hrep (tr ++ evs1))
      as (second & evs2 & Hrun2 & Hp2 & Hok).
    exists first, evs1, second, evs2.
    repeat split; try assumption.
    rewrite posts_app, Hp1, Hp2. simpl. lia.
Qed.

Lemma unknown_is_not (state literal : string) :
  String.prefix "Unknown" state = true ->
  String.prefix "O" literal = true ->
  String.eqb state literal = false.
Proof.
  intros Hs Hl.
  destruct state as [|c state]; [discriminate|].
  destruct literal as [|d literal]; [discriminate|].
  cbn [String.prefix] in Hs, Hl.
  destruct (Ascii.ascii_dec _ c) as [<-|]; [|discriminate].
  destruct (Ascii.ascii_dec _ d) as [<-|]; [|discriminate].
  reflexivity.
Qed.

(** C5, as the code has it.  A power-off asked of a target whose state
    reads as Unknown is still attempted: the warning is printed, and
    exactly one state-changing request is sent, to the reset action, with
    the reset type the [force] flag selects: [ForceOff] when it is set,
    [GracefulShutdown] when it is not.  The value returned is the boolean
    success of that request; the warning is on the output only. *)
Theorem power_off_unknown_attempts (system : System) (force : bool) (env : Env)
    (tr : Trace) (client : Client) (tr1 : Trace) (state : string) (tr2 : Trace) :
  RedfishSession.__enter__ (default_manager system) env tr = (Ok client, tr1) ->
  get_power_status client (ip system) env tr1 = (Ok (PyStr state), tr2) ->
  String.prefix "Unknown" state = true ->
  exists accepted evs,
    power_off_system system force env tr = (Ok accepted, tr ++ evs)
    /\ In (EvPrint
             "Warning: Could not determine current power state for {ip} ({current_state}). Attempting power off."
             [PyStr (ip system); PyStr state]) evs
    /\ posts evs
       = [(ip system, REDFISH_RESET_ACTION_PATH,
           if force then "ForceOff" else "GracefulShutdown")].
Proof.
  intros Henter Hread Hunknown.
  destruct (enter_events system env tr) as (evs1 & r1 & Hr1 & Hp1 & Hc).
  rewrite Henter in Hr1. inversion Hr1; subst tr1 r1. clear Hr1.
  rewrite (Hc client eq_refl) in *. clear Hc.
  destruct (get_power_status_events {| base_url := ip system |} (ip system) env (tr ++ evs1))
    as (evs2 & r2 & Hr2 & Hp2).
  rewrite Hread in Hr2. inversion Hr2; subst tr2. clear Hr2.
  apply posts_nil_of_steps in Hp2.
  unfold power_off_system, with_session, with_manager.
  fold (default_manager system).
  unfold bind at 1. rewrite Henter.
  unfold finally, bind at 1. rewrite Hread.
  cbn [py_eq_str is_str_eq]. rewrite (unknown_is_not state "Off" Hunknown eq_refl).
  cbn [py_startswith]. rewrite Hunknown.
  run_m. cbn [base_url].
  step_io.
  - destruct (status_accepted r) as [[|]|e] eqn:Hacc; cbn iota beta;
      match goal with
      | |- context [RedfishSession.__exit__ ?s env ?t] =>
          destruct (exit_events s env t) as (rep & secs0 & Hexit); rewrite Hexit
      end;
      rewrite !app_one_assoc, <- !app_assoc;
      eexists _, _; (split; [reflexivity|]);
      (split; [apply in_or_app; right; apply in_or_app; right; left; reflexivity|]);
      rewrite !posts_app, Hp1, Hp2; reflexivity.
  - match goal with
    | |- context [RedfishSession.__exit__ ?s env ?t] =>
        destruct (exit_events s env t) as (rep & secs0 & Hexit); rewrite Hexit
    end.
    rewrite !app_one_assoc, <- !app_assoc.
    eexists _, _. split; [reflexivity|].
    split; [apply in_or_app; right; apply in_or_app; right; left; reflexivity|].
    rewrite !posts_app, Hp1, Hp2. reflexivity.
Qed.

(** ** Metric discovery *)

Lemma discovery_order (env : Env) (probes : list Probe) (tr : Trace) (v : PyValue)
    (tr' : Trace) (tried : list string) :
  discovery env probes tr v tr' tried ->
  (exists k, tried = firstn k (map probe_label probes))
  /\ (is_none v = true -> tried = map probe_label probes).
Proof.
  induction 1 as [tr|p rest tr v tr' Hrun Hv|p rest tr tr1 v tr' tried Hrun Hrest [[k Hk] Hall]].
  - split; [exists 0%nat; reflexivity | reflexivity].
  - split; [exists 1%nat; reflexivity | congruence].
  - split.
    + exists (S k). cbn [map firstn]. rewrite <- Hk. reflexivity.
    + intros Hnone. cbn [map]. rewrite (Hall Hnone). reflexivity.
Qed.

Ltac valid_value :=
  repeat match goal with
         | H : Ok _ = Ok _ |- _ => injection H as H; try subst
         | H : Some _ = Some _ |- _ => injection H as H; try subst
         | H : some_unless_none ?w = Some _ |- _ =>
             unfold some_unless_none in H; destruct (is_none w) eqn:?
         | H : returned_mean ?l = Some _ |- _ =>
             unfold returned_mean in H; destruct l
         | H : context [match ?x with _ => _ end] |- _ => destruct x eqn:?
         | _ => discriminate
         | _ => assumption
         | _ => reflexivity
         end.

Lemma power_control_scan_valid (pcs : list PyValue) (v : PyValue) :
  power_control_scan pcs = Ok (Some v) -> is_none v = false.
Proof.
  induction pcs as [|pc rest IH]; cbn [power_control_scan]; [discriminate|].
  unfold exc_bind. intros H.
  destruct (py_in "PowerConsumedWatts" pc) as [[|]|]; try discriminate; auto.
  destruct (py_get pc "PowerConsumedWatts") as [w|]; try discriminate.
  destruct (is_none w) eqn:Hw; auto. inversion H; subst. exact Hw.
Qed.

Lemma power_extract_1_valid (data v : PyValue) :
  power_extract_1 data = Ok (Some v) -> is_none v = false.
Proof.
  unfold power_extract_1, exc_and, exc_bind. intros H.
  destruct (truthy data); [|discriminate].
  repeat match type of H with
         | context [power_control_scan ?l] => fail 1
         | context [match ?x with _ => _ end] => destruct x eqn:?; try discriminate
         end;
    eauto using power_control_scan_valid.
Qed.

Ltac unfold_extract :=
  unfold power_extract_2, power_extract_3, cpu_extract_1, cpu_extract_2, cpu_extract_3,
    cpu_extract_5, oem_hpe, exc_and, exc_bind.

Lemma power_extract_2_valid (data v : PyValue) :
  power_extract_2 data = Ok (Some v) -> is_none v = false.
Proof. unfold_extract. intros H. valid_value. Qed.

Lemma power_extract_3_valid (data v : PyValue) :
  power_extract_3 data = Ok (Some v) -> is_none v = false.
Proof. unfold_extract. intros H. valid_value. Qed.

Lemma cpu_extract_1_valid (data v : PyValue) :
  cpu_extract_1 data = Ok (Some v) -> is_none v = false.
Proof. unfold_extract. intros H. valid_value. Qed.

Lemma cpu_extract_2_valid (data v : PyValue) :
  cpu_extract_2 data = Ok (Some v) -> is_none v = false.
Proof. unfold_extract. intros H. valid_value. Qed.

Lemma cpu_extract_3_valid (data v : PyValue) :
  cpu_extract_3 data = Ok (Some v) -> is_none v = false.
Proof. unfold_extract. intros H. valid_value. Qed.

Lemma returned_mean_valid (cpu_loads : list PyValue) (v : PyValue) :
  returned_mean cpu_loads = Some v -> is_none v = false.
Proof. destruct cpu_loads; intros H; inversion H; reflexivity. Qed.

Lemma cpu_extract_5_valid (data v : PyValue) :
  cpu_extract_5 data = Ok (Some v) -> is_none v = false.
Proof.
  unfold_extract. intros H.
  repeat match type of H with
         | context [member_loads ?l ?a] => fail 1
         | context [match ?x with _ => _ end] => destruct x eqn:?; try discriminate
         end.
  - valid_value.
  - destruct (member_loads _ _) as [loads|]; [|discriminate].
    inversion H. eauto using returned_mean_valid.
Qed.

(** A single-request method never raises, and a value it yields is not
    [None]. *)
Lemma single_request_method_total (client : Client) (path : string)
    (extract : PyValue -> Exc (option PyValue)) (env : Env) (tr : Trace) :
  (forall data v, extract data = Ok (Some v) -> is_none v = false) ->
  exists found tr',
    single_request_method client path extract env tr = (Ok found, tr')
    /\ (forall v, found = Some v -> is_none v = false).
Proof.
  intros Hvalid. unfold single_request_method. run_m. step_io.
  - destruct (_safe_get_json (json_loads env) r) as [data|e0]; cbn iota beta.
    + destruct (extract data) as [[v|]|e1] eqn:Hx; cbn iota beta.
      * eexists _, _. split; [reflexivity|]. intros v0 Hv0. inversion Hv0; subst. eauto.
      * eexists _, _. split; [reflexivity|]. discriminate.
      * destruct e1 as [[]| |]; eexists _, _; (split; [reflexivity | discriminate]).
    + destruct e0 as [[]| |]; eexists _, _; (split; [reflexivity | discriminate]).
  - destruct e; eexists _, _; (split; [reflexivity | discriminate]).
Qed.

Lemma cpu_method_4_total (client : Client) (env : Env) (tr : Trace) :
  exists found tr',
    cpu_method_4 client env tr = (Ok found, tr')
    /\ (forall v, found = Some v -> is_none v = false).
Proof.
  unfold cpu_method_4. run_m. step_io.
  - destruct (_safe_get_json (json_loads env) r) as [data|e0]; cbn iota beta.
    + match goal with
      | |- context [match ?c with Ok _ => _ | Raise _ => _ end] =>
          destruct c as [[|]|e1]; cbn iota beta
      end.
      * destruct (py_getitem data "Members") as [ms|e2]; cbn iota beta.
        -- destruct (processor_loads client (list_items ms) [] env _) as [[loads|e3] tr'].
           ++ eexists _, _. split; [reflexivity|]. apply returned_mean_valid.
           ++ destruct e3 as [[]| |]; eexists _, _; (split; [reflexivity | discriminate]).
        -- destruct e2 as [[]| |]; eexists _, _; (split; [reflexivity | discriminate]).
      * eexists _, _. split; [reflexivity | discriminate].
      * destruct e1 as [[]| |]; eexists _, _; (split; [reflexivity | discriminate]).
    + destruct e0 as [[]| |]; eexists _, _; (split; [reflexivity | discriminate]).
  - destruct e; eexists _, _; (split; [reflexivity | discriminate]).
Qed.

(** A transport-level error on the request of a probe is that probe
    yielding nothing. *)
Lemma single_request_method_transport (client : Client) (path : string)
    (extract : PyValue -> Exc (option PyValue)) (env : Env) (tr : Trace) (e : LibError) :
  respond env tr (base_url client) (ReqGet path) = Raised e ->
  single_request_method client path extract env tr
    = (Ok None,
       tr ++ [EvIO (base_url client) (ReqGet path) (Raised e)
                (latency env tr (base_url client) (ReqGet path))]).
Proof.
  intros H. unfold single_request_method. run_m. unfold io. rewrite H.
  destruct e; reflexivity.
Qed.

Lemma cpu_method_4_transport (client : Client) (env : Env) (tr : Trace) (e : LibError) :
  respond env tr (base_url client) (ReqGet REDFISH_PROCESSOR_COLLECTION_PATH) = Raised e ->
  cpu_method_4 client env tr
    = (Ok None,
       tr ++ [EvIO (base_url client) (ReqGet REDFISH_PROCESSOR_COLLECTION_PATH) (Raised e)
                (latency env tr (base_url client)
                   (ReqGet REDFISH_PROCESSOR_COLLECTION_PATH))]).
Proof.
  intros H. unfold cpu_method_4. run_m. unfold io. rewrite H.
  destruct e; reflexivity.
Qed.

Ltac next_probe client path extract valid env :=
  match goal with
  | |- context [single_request_method client path extract env ?t] =>
      let found := fresh "found" in
      let tr1 := fresh "tr" in
      let Hrun := fresh "Hrun" in
      let Hvalid := fresh "Hvalid" in
      destruct (single_request_method_total client path extract env t valid)
        as (found & tr1 & Hrun & Hvalid);
      rewrite Hrun; destruct found as [?v|]; cbn iota beta
  end.

Ltac found_here Hrun Hvalid :=
  eexists _, _, _; split; [reflexivity|];
  repeat (eapply discovery_next; [eassumption|]);
  eapply discovery_found; [exact Hrun | apply Hvalid; reflexivity].

Lemma get_power_watts_discovery (client : Client) (address : string)
    (identifier : PyValue) (env : Env) (tr : Trace) :
  exists v tr' tried,
    get_power_watts client address identifier env tr = (Ok v, tr')
    /\ discovery env (power_probes client) tr v tr' tried.
Proof.
  unfold get_power_watts, power_probes. run_m.
  next_probe client REDFISH_POWER_PATH power_extract_1 power_extract_1_valid env.
  { found_here Hrun Hvalid. }
  next_probe client REDFISH_POWER_SUBSYSTEM_METRICS_PATH power_extract_2
    power_extract_2_valid env.
  { found_here Hrun0 Hvalid0. }
  next_probe client REDFISH_SYSTEM_PATH power_extract_3 power_extract_3_valid env.
  { found_here Hrun1 Hvalid1. }
  eexists _, _, _. split; [reflexivity|].
  repeat (eapply discovery_next; [eassumption|]). apply discovery_exhausted.
Qed.

Lemma get_cpu_utilization_discovery (client : Client) (address : string)
    (identifier : PyValue) (env : Env) (tr : Trace) :
  exists v tr' tried,
    get_cpu_utilization client address identifier env tr = (Ok v, tr')
    /\ discovery env (cpu_probes client) tr v tr' tried.
Proof.
  unfold get_cpu_utilization, cpu_probes, guarded. run_m.
  next_probe client REDFISH_SYSTEM_PATH cpu_extract_1 cpu_extract_1_valid env.
  { found_here Hrun Hvalid. }
  next_probe client REDFISH_SYSTEM_METRICS_PATH cpu_extract_2 cpu_extract_2_valid env.
  { found_here Hrun0 Hvalid0. }
  next_probe client REDFISH_PROCESSOR_SUMMARY_METRICS_PATH cpu_extract_3
    cpu_extract_3_valid env.
  { found_here Hrun1 Hvalid1. }
  match goal with
  | |- context [cpu_method_4 client env ?t] =>
      destruct (cpu_method_4_total client env t) as (found4 & tr4 & Hrun4 & Hvalid4);
      rewrite Hrun4; destruct found4 as [v4|]; cbn iota beta
  end.
  { found_here Hrun4 Hvalid4. }
  next_probe client REDFISH_HPE_PROCESSOR_COLLECTION_PATH cpu_extract_5
    cpu_extract_5_valid env.
  { found_here Hrun2 Hvalid2. }
  eexists _, _, _. split; [reflexivity|].
  repeat (eapply discovery_next; [eassumption|]). apply discovery_exhausted.
Qed.

(** C3. For both metrics, discovery exercises the candidate probes in
    their declared order and returns the value of the first probe whose
    extraction yields a value other than [None], leaving the later probes
    alone; the probes tried are a prefix of the declared list; [None] comes
    back only when every probe of the list has been tried without a value;
    and a transport-level error on the request of a probe makes that probe
    yield nothing, never an exception of the call. *)
Theorem discovery_first_valid_probe (client : Client) (address : string)
    (identifier : PyValue) (env : Env) (tr : Trace) :
  (exists v tr' tried,
      get_power_watts client address identifier env tr = (Ok v, tr')
      /\ discovery env (power_probes client) tr v tr' tried
      /\ (exists k, tried = firstn k (map probe_label (power_probes client)))
      /\ (is_none v = true -> tried = map probe_label (power_probes client)))
  /\ (exists v tr' tried,
      get_cpu_utilization client address identifier env tr = (Ok v, tr')
      /\ discovery env (cpu_probes client) tr v tr' tried
      /\ (exists k, tried = firstn k (map probe_label (cpu_probes client)))
      /\ (is_none v = true -> tried = map probe_label (cpu_probes client)))
  /\ (forall p, In p (power_probes client ++ cpu_probes client) ->
      forall tr0 e,
        respond env tr0 (base_url client) (ReqGet (probe_path p)) = Raised e ->
        probe_run p env tr0
          = (Ok None,
             tr0 ++ [EvIO (base_url client) (ReqGet (probe_path p)) (Raised e)
                       (latency env tr0 (base_url client) (ReqGet (probe_path p)))])).
Proof.
  split; [|split].
  - destruct (get_power_watts_discovery client address identifier env tr)
      as (v & tr' & tried & Hrun & Hd).
    exists v, tr', tried. split; [exact Hrun|]. split; [exact Hd|].
    exact (discovery_order _ _ _ _ _ _ Hd).
  - destruct (get_cpu_utilization_discovery client address identifier env tr)
      as (v & tr' & tried & Hrun & Hd).
    exists v, tr', tried. split; [exact Hrun|]. split; [exact Hd|].
    exact (discovery_order _ _ _ _ _ _ Hd).
  - intros p Hin tr0 e Hresp.
    cbn [power_probes cpu_probes app In] in Hin.
    repeat match type of Hin with
           | _ \/ _ => destruct Hin as [<-|Hin]
           end.
    all: cbn [probe_run probe_path].
    all: try (apply single_request_method_transport; exact Hresp).
    all: try (apply cpu_method_4_transport; exact Hresp).
    all: try contradiction.
Qed.

(** The probes on sample devices: a value on the second probe ends the
    call there; a dropped connection on the first probe is that probe
    failing; a device with no power figure has all three probes tried. *)
Example power_found_by_second_probe :
  let run := get_power_watts {| base_url := "10.0.0.4" |} "10.0.0.4" (PyStr "Unknown")
               (sample_env second_probe_device 1) [] in
  fst run = Ok (PyNum (inject_Z 95))
  /\ probes_tried (snd run) = [REDFISH_POWER_PATH; REDFISH_POWER_SUBSYSTEM_METRICS_PATH].
Proof. vm_compute. split; reflexivity. Qed.

Example power_probe_survives_transport_error :
  let run := get_power_watts {| base_url := "10.0.0.4" |} "10.0.0.4" (PyStr "Unknown")
               (sample_env flaky_probe_device 1) [] in
  fst run = Ok (PyNum (inject_Z 95))
  /\ probes_tried (snd run) = [REDFISH_POWER_PATH; REDFISH_POWER_SUBSYSTEM_METRICS_PATH].
Proof. vm_compute. split; reflexivity. Qed.

Example power_not_found_after_all_probes :
  let run := get_power_watts {| base_url := "10.0.0.4" |} "10.0.0.4" (PyStr "Unknown")
               (sample_env (serving_device None) 1) [] in
  fst run = Ok PyNone
  /\ probes_tried (snd run) = map probe_label (power_probes {| base_url := "10.0.0.4" |}).
Proof. vm_compute. split; reflexivity. Qed.

Example cpu_not_found_after_all_probes :
  let run := get_cpu_utilization {| base_url := "10.0.0.4" |} "10.0.0.4" (PyStr "Unknown")
               (sample_env (serving_device None) 1) [] in
  fst run = Ok PyNone
  /\ probes_tried (snd run) = map probe_label (cpu_probes {| base_url := "10.0.0.4" |}).
Proof. vm_compute. split; reflexivity. Qed.

(** ** Aggregation *)

(** Two valid readings of 120 W and 95 W and one target without a reading:
    two valid readings, a mean of 107.5 W. *)
Example mean_of_two_readings :
  let agg := aggregate [inject_Z 120; inject_Z 95] [] in
  valid_power_readings agg = 2%nat
  /\ (total_watts agg == 215)%Q
  /\ (avg_watts agg == 215 # 2)%Q
  /\ avg_cpu agg = None.
Proof. vm_compute. repeat split. Qed.

Lemma exc_map_length {A B} (f : A -> Exc B) (l : list A) (l' : list B) :
  exc_map f l = Ok l' -> length l' = length l.
Proof.
  revert l'. induction l as [|x l IH]; intros l' H; cbn [exc_map] in H.
  - injection H as <-. reflexivity.
  - unfold exc_bind in H. destruct (f x) as [y|]; [|discriminate].
    destruct (exc_map f l) as [ys|]; [|discriminate].
    injection H as <-. cbn [length]. rewrite (IH ys eq_refl). reflexivity.
Qed.

Lemma not_none_watts (results : list Metrics) :
  length (not_none (map watts results)) = length (with_power_reading results).
Proof.
  unfold not_none, with_power_reading.
  induction results as [|r results IH]; [reflexivity|].
  cbn [map filter]. destruct (negb (is_none (watts r))); cbn [length]; rewrite IH; reflexivity.
Qed.

Lemma aggregate_row (timestamp : Z) (watts_values cpu_values : list Q) (total_servers : nat) :
  let agg := aggregate watts_values cpu_values in
  power_row timestamp (total_watts agg) (avg_watts agg) (avg_cpu agg)
    (valid_power_readings agg) total_servers
  = snapshot_row timestamp watts_values cpu_values total_servers.
Proof.
  destruct watts_values, cpu_values; reflexivity.
Qed.

(** C6, as the code has it.  The aggregates of a tick are computed over
    exactly the readings that are not [None]: the count of valid readings
    is the number of results that carry a power reading, the total is the
    sum of those readings and the average their arithmetic mean, and the
    CPU average is the mean of the CPU readings present.  With no CPU
    reading at all the CPU average is recorded as the text [Unknown]; with
    no power reading at all the power total and average are recorded as
    the number zero, beside a count of valid readings of zero. *)
Theorem tick_aggregates_valid_readings (ilo_systems : list System) (output_csv : string)
    (workers current_time : Z) (env : Env) (tr : Trace)
    (results : list Metrics) (tr1 : Trace) (watts_values cpu_values : list Q) :
  executor_map workers get_system_metrics ilo_systems env
    (tr ++ [EvPrint "[{timestamp}] Checking metrics for {len(ilo_systems)} systems..."
              [PyNum (inject_Z current_time); py_nat (length ilo_systems)]])
    = (Ok results, tr1) ->
  exc_map (np_float64 (float_of_str env)) (not_none (map watts results)) = Ok watts_values ->
  exc_map (np_float64 (float_of_str env)) (not_none (map cpu_load results)) = Ok cpu_values ->
  exists evs,
    monitor_power_tick ilo_systems output_csv workers current_time env tr
      = (Ok tt, tr1 ++ evs)
    /\ sink_writes evs
       = [(output_csv,
           [snapshot_row current_time watts_values cpu_values (length ilo_systems)])]
    /\ length watts_values = length (with_power_reading results).
Proof.
  intros Hmap Hw Hc.
  unfold monitor_power_tick. unfold bind at 1. unfold print at 1, emit.
  unfold bind at 1. rewrite Hmap.
  unfold bind at 1. unfold np_array_float64 at 1. rewrite Hw.
  unfold bind at 1. unfold np_array_float64 at 1. rewrite Hc.
  cbv zeta.
  pose proof (aggregate_row current_time watts_values cpu_values (length ilo_systems)) as Hrow.
  cbv zeta in Hrow.
  unfold save_power_data_to_csv. rewrite Hrow. run_m.
  assert (Hlen : length watts_values = length (with_power_reading results)).
  { rewrite (exc_map_length _ _ _ Hw). apply not_none_watts. }
  destruct (avg_cpu (aggregate watts_values cpu_values));
    match goal with
    | |- context [sink_accepts env ?t output_csv] => destruct (sink_accepts env t output_csv)
    end;
    (eexists; split; [repeat rewrite <- app_assoc; reflexivity|]);
    (split; [reflexivity | exact Hlen]).
Qed.

(** C6, the claim as stated fails: on a tick in which no target gives a
    power reading, the row handed to the sink carries the number zero as
    power total and as power average; only the CPU average is marked as
    missing. *)
Lemma no_power_reading_recorded_as_zero :
  let run := monitor_power_tick [healthy_target] "out.csv" 10 0
               (sample_env (serving_device None) 1) [] in
  fst run = Ok tt
  /\ sink_writes (snd run)
     = [("out.csv",
         [[("timestamp", CellTime 0);
           ("total_power_watts", CellFixed 2 0);
           ("avg_power_watts", CellFixed 2 0);
           ("avg_cpu_load", CellStr "Unknown");
           ("valid_readings", CellInt 0);
           ("total_servers", CellInt 1)]])].
Proof. vm_compute. split; reflexivity. Qed.

Lemma tick_aggregates_valid_readings_witness :
  exists evs,
    monitor_power_tick [healthy_target] "out.csv" 10 0 (sample_env healthy_device 1) []
      = (Ok tt,
         snd (executor_map 10 get_system_metrics [healthy_target]
                (sample_env healthy_device 1)
                ([] ++ [EvPrint "[{timestamp}] Checking metrics for {len(ilo_systems)} systems..."
                          [PyNum (inject_Z 0); py_nat 1]])) ++ evs)
    /\ sink_writes evs
       = [("out.csv", [snapshot_row 0 [inject_Z 120] [] 1])]
    /\ length [inject_Z 120]
       = length (with_power_reading
                   [{| metrics_ip := "10.0.0.1"; watts := PyNum (inject_Z 120);
                       cpu_load := PyNone |}]).
Proof.
  apply (tick_aggregates_valid_readings [healthy_target] "out.csv" 10 0
           (sample_env healthy_device 1) []
           [{| metrics_ip := "10.0.0.1"; watts := PyNum (inject_Z 120); cpu_load := PyNone |}]);
    vm_compute; reflexivity.
Defined.

(** C5, the claim as stated fails: a power-off without the [force] flag
    on a target whose state reads as Unknown prints the warning and sends
    [GracefulShutdown]; no request of the call carries [ForceOff]. *)
Lemma power_off_unknown_graceful_by_default :
  let run := power_off_system healthy_target false
               (sample_env (serving_device None) 1) [] in
  fst run = Ok true
  /\ In (EvPrint
           "Warning: Could not determine current power state for {ip} ({current_state}). Attempting power off."
           [PyStr "10.0.0.1"; PyStr "Unknown (Status 500)"]) (snd run)
  /\ posts (snd run) = [("10.0.0.1", REDFISH_RESET_ACTION_PATH, "GracefulShutdown")]
  /\ ~ In ("10.0.0.1", REDFISH_RESET_ACTION_PATH, "ForceOff") (posts (snd run)).
Proof.
  vm_compute. repeat split.
  - do 3 right. left. reflexivity.
  - intros [H|[]]. discriminate.
Qed.

Lemma power_off_unknown_attempts_witness :
  exists accepted evs,
    power_off_system healthy_target true (sample_env (serving_device None) 1) []
      = (Ok accepted, [] ++ evs)
    /\ In (EvPrint
             "Warning: Could not determine current power state for {ip} ({current_state}). Attempting power off."
             [PyStr (ip healthy_target); PyStr "Unknown (Status 500)"]) evs
    /\ posts evs = [(ip healthy_target, REDFISH_RESET_ACTION_PATH, "ForceOff")].
Proof.
  apply (power_off_unknown_attempts healthy_target true
           (sample_env (serving_device None) 1) []
           {| base_url := "10.0.0.1" |}
           [EvIO "10.0.0.1" ReqConnect (Returned None) 1;
            EvIO "10.0.0.1" (ReqLogin SessionAuth) (Returned None) 1]
           "Unknown (Status 500)"
           [EvIO "10.0.0.1" ReqConnect (Returned None) 1;
            EvIO "10.0.0.1" (ReqLogin SessionAuth) (Returned None) 1;
            EvIO "10.0.0.1" (ReqGet REDFISH_SYSTEM_PATH)
              (Returned (Some {| status := 500; text := "" |})) 1]);
    vm_compute; reflexivity.
Defined.

Lemma session_open_retry_policy_witness :
  exists evs retries final,
    let attempts := repeat ConnectFailed retries ++ [final] in
    RedfishSession.__enter__ sample_manager (sample_env unreachable_device 1) []
      = (enter_outcome sample_manager final, [] ++ evs)
    /\ steps evs = run_steps (RedfishSession.retry_delay sample_manager) attempts
    /\ Z.of_nat (length attempts) <= RedfishSession.max_retries sample_manager + 1
    /\ (final = ConnectFailed -> Z.of_nat retries = RedfishSession.max_retries sample_manager).
Proof.
  apply (session_open_retry_policy sample_manager (sample_env unreachable_device 1) []);
    vm_compute; discriminate.
Defined.

(** The retry policy on the two sample failures: an unreachable device
    costs four attempts and three delays; refused credentials end the run
    in the first attempt, with no delay. *)
Example enter_unreachable :
  let run := RedfishSession.__enter__ sample_manager (sample_env unreachable_device 1) [] in
  fst run = Raise ConnectionError
  /\ steps (snd run)
     = [StepConnect false; StepSleep 2; StepConnect false; StepSleep 2;
        StepConnect false; StepSleep 2; StepConnect false].
Proof. vm_compute. split; reflexivity. Qed.

Example enter_bad_credentials :
  let run := RedfishSession.__enter__ sample_manager
               (sample_env bad_credentials_device 1) [] in
  fst run = Raise AuthenticationError
  /\ steps (snd run)
     = [StepConnect true; StepLogin SessionAuth false; StepLogin BasicAuth false;
        StepLogout].
Proof. vm_compute. split; reflexivity. Qed.

Lemma healthy_reports_on : reports_power_state (sample_env healthy_device 1) "10.0.0.1" "On".
Proof.
  intros tr. exists {| status := 200; text := "system: On" |}, [("PowerState", PyStr "On")].
  repeat split; try reflexivity. discriminate.
Defined.

Lemma ensure_state_idempotent_witness :
  exists first evs1 second evs2,
    ensureState healthy_target DesiredOn false (sample_env healthy_device 1) []
      = (first, [] ++ evs1)
    /\ ensureState healthy_target DesiredOn false (sample_env healthy_device 1) ([] ++ evs1)
       = (second, ([] ++ evs1) ++ evs2)
    /\ (length (posts (evs1 ++ evs2)) <= 1)%nat
    /\ (forall client tr1,
          RedfishSession.__enter__ (default_manager healthy_target)
            (sample_env healthy_device 1) ([] ++ evs1) = (Ok client, tr1) ->
          second = Ok true).
Proof.
  exact (proj2 (ensure_state_idempotent healthy_target DesiredOn false
                  (sample_env healthy_device 1) [])
           healthy_reports_on).
Defined.

Example power_on_twice :
  let env := sample_env healthy_device 1 in
  let first := power_on_system healthy_target env [] in
  let second := power_on_system healthy_target env (snd first) in
  fst first = Ok true /\ fst second = Ok true /\ posts (snd second) = [].
Proof. vm_compute. repeat split. Qed.

(** ** Fan-out *)

(** [get_power], the worker of the batch command, turns every failure into
    the value [None]. *)
Lemma get_power_total (system : System) (env : Env) (tr : Trace) :
  exists v tr', get_power system env tr = (Ok v, tr').
Proof.
  unfold get_power, try_except.
  destruct (with_session system _ env tr) as [[v|e] tr'].
  - eauto.
  - destruct e as [[]| |]; run_m; eauto.
Qed.

Lemma run_workers_total {A B} (fn : A -> M B) (items : list A) :
  (forall x env tr, exists y tr', fn x env tr = (Ok y, tr')) ->
  forall env tr, exists futures results tr',
    run_workers fn items env tr = (Ok futures, tr')
    /\ collect futures = Ok results
    /\ length results = length items.
Proof.
  intros Htotal. induction items as [|x items IH]; intros env tr.
  - exists [], [], tr. repeat split.
  - cbn [run_workers]. unfold capture. run_m.
    destruct (Htotal x env tr) as (y & tr1 & Hy). rewrite Hy.
    destruct (IH env tr1) as (futures & results & tr' & Hrun & Hcollect & Hlen).
    rewrite Hrun.
    exists (Ok y :: futures), (y :: results), tr'.
    split; [reflexivity|]. split.
    + cbn [collect]. rewrite Hcollect. reflexivity.
    + cbn [length]. rewrite Hlen. reflexivity.
Qed.

(** The batch command [--power-watts] over N targets yields exactly N
    per-target results, whatever the targets do: a target that fails
    contributes [None]. *)
Theorem power_watts_one_result_per_target (ilo_systems : list System) (workers : Z)
    (env : Env) (tr : Trace) :
  0 < workers ->
  exists results tr',
    power_watts_results ilo_systems workers env tr = (Ok results, tr')
    /\ length results = length ilo_systems.
Proof.
  intros Hworkers. unfold power_watts_results, executor_map.
  destruct (Z.leb_spec workers 0) as [Hle|_]; [lia|].
  destruct (run_workers_total get_power ilo_systems get_power_total env tr)
    as (futures & results & tr' & Hrun & Hcollect & Hlen).
  run_m. rewrite Hrun, Hcollect. eauto.
Qed.

Lemma power_watts_one_result_per_target_witness :
  exists results tr',
    power_watts_results [healthy_target; unreachable_target] 10
      (sample_env mixed_fleet 1) [] = (Ok results, tr')
    /\ length results = length [healthy_target; unreachable_target].
Proof.
  apply (power_watts_one_result_per_target [healthy_target; unreachable_target] 10
           (sample_env mixed_fleet 1) []).
  reflexivity.
Defined.

(** C1, where the code departs from the claim.  A monitoring tick over a
    fleet of two, the first healthy and the second unreachable: the worker
    of the healthy target returns its reading, the worker of the
    unreachable one lets the [ConnectionError] of the session manager
    escape, and the fan-out of the tick ends in that exception with no
    result for either target.  The batch command over the same fleet
    returns one result per target. *)
Theorem monitor_fan_out_loses_batch_on_failed_target :
  let env := sample_env mixed_fleet 1 in
  fst (get_system_metrics healthy_target env [])
    = Ok {| metrics_ip := "10.0.0.1"; watts := PyNum (inject_Z 120); cpu_load := PyNone |}
  /\ fst (get_system_metrics unreachable_target env []) = Raise ConnectionError
  /\ fst (executor_map 10 get_system_metrics [healthy_target; unreachable_target] env [])
     = Raise ConnectionError
  /\ fst (power_watts_results [healthy_target; unreachable_target] 10 env [])
     = Ok [PyNum (inject_Z 120); PyNone].
Proof. vm_compute. repeat split. Qed.

(** ** Monitoring loop *)

(** C7, where the code departs from the claim.  [monitor_power] asked for
    two iterations over the fleet with one unreachable target starts one
    tick, hands nothing to the sink, prints the monitoring error and
    returns. *)
Theorem monitor_power_stops_at_failed_target :
  let run := monitor_power [healthy_target; unreachable_target] 1 "out.csv" 10 (Some 2) 2
               (sample_env mixed_fleet 1) [] in
  fst run = Ok true
  /\ length (tick_starts (snd run)) = 1%nat
  /\ sink_writes (snd run) = []
  /\ In (EvPrint "Error during monitoring: {str(e)}" []) (snd run).
Proof.
  vm_compute. repeat split.
  repeat (first [left; reflexivity | right]).
Qed.

(** C8, where the code departs from the claim.  One healthy target, an
    interval of one minute, two iterations.  When the work of the first
    tick takes 30 seconds, the second tick starts at second 90; when it
    takes 100 seconds, the second tick starts at second 160.  Both times
    the run had announced the next check for second 60, the start of the
    tick plus the interval; the sleep is a whole interval counted from the
    end of the work. *)
Theorem interval_counted_from_end_of_work :
  let quick := monitor_power [healthy_target] 1 "out.csv" 10 (Some 2) 2
                 (sample_env healthy_device 3) [] in
  let slow := monitor_power [healthy_target] 1 "out.csv" 10 (Some 2) 2
                (sample_env healthy_device 10) [] in
  tick_starts (snd quick) = [PyNum (inject_Z 0); PyNum (inject_Z 90)]
  /\ announced_checks (snd quick) = [PyNum (inject_Z 60)]
  /\ sleeps (snd quick) = [60]
  /\ tick_starts (snd slow) = [PyNum (inject_Z 0); PyNum (inject_Z 160)]
  /\ announced_checks (snd slow) = [PyNum (inject_Z 60)]
  /\ sleeps (snd slow) = [60].
Proof. vm_compute. repeat split. Qed.

Section LoopOfCompletedTicks.

Variable tick : Z -> M unit.
Variable interval_minutes : Z.
Variable k : Z.
Hypothesis interval_nonnegative : 0 <= interval_minutes.
Hypothesis tick_completes : forall t env tr, exists tr', tick t env tr = (Ok tt, tr').


End LoopOfCompletedTicks.



(** * Further properties of the script *)

(** ** Footprints of the monad's operations *)

Lemma only_weaken (P Q : Event -> bool) {A : Type} (c : M A) :
  (forall ev, P ev = true -> Q ev = true) -> only P c -> only Q c.
Proof.
  intros HPQ Hc env tr. destruct (Hc env tr) as (r & evs & Hrun & Hall).
  exists r, evs. split; [exact Hrun|].
  rewrite forallb_forall in *. auto.
Qed.

Lemma only_ret (P : Event -> bool) {A : Type} (a : A) : only P (ret a).
Proof. intros env tr. exists (Ok a), []. rewrite app_nil_r. split; reflexivity. Qed.

Lemma only_raise (P : Event -> bool) {A : Type} (e : PyExn) : only P (@raise A e).
Proof. intros env tr. exists (Raise e), []. rewrite app_nil_r. split; reflexivity. Qed.

Lemma only_lift (P : Event -> bool) {A : Type} (c : Exc A) : only P (lift c).
Proof. intros env tr. exists c, []. rewrite app_nil_r. split; reflexivity. Qed.

Lemma only_bind (P : Event -> bool) {A B : Type} (c : M A) (k : A -> M B) :
  only P c -> (forall a, only P (k a)) -> only P (bind c k).
Proof.
  intros Hc Hk env tr. unfold bind.
  destruct (Hc env tr) as (r & evs & Hrun & Hall). rewrite Hrun.
  destruct r as [a|e].
  - destruct (Hk a env (tr ++ evs)) as (r' & evs' & Hrun' & Hall').
    exists r', (evs ++ evs'). rewrite Hrun', app_assoc, forallb_app, Hall, Hall'.
    split; reflexivity.
  - exists (Raise e), evs. split; [reflexivity | exact Hall].
Qed.

Lemma only_try_except (P : Event -> bool) {A : Type} (c : M A) (h : PyExn -> M A) :
  only P c -> (forall e, only P (h e)) -> only P (try_except c h).
Proof.
  intros Hc Hh env tr. unfold try_except.
  destruct (Hc env tr) as (r & evs & Hrun & Hall). rewrite Hrun.
  destruct r as [a|e].
  - exists (Ok a), evs. split; [reflexivity | exact Hall].
  - destruct (Hh e env (tr ++ evs)) as (r' & evs' & Hrun' & Hall').
    exists r', (evs ++ evs'). rewrite Hrun', app_assoc, forallb_app, Hall, Hall'.
    split; reflexivity.
Qed.

Lemma only_finally (P : Event -> bool) {A : Type} (c : M A) (cleanup : M unit) :
  only P c -> only P cleanup -> only P (finally c cleanup).
Proof.
  intros Hc Hf env tr. unfold finally.
  destruct (Hc env tr) as (r & evs & Hrun & Hall). rewrite Hrun.
  destruct (Hf env (tr ++ evs)) as (r' & evs' & Hrun' & Hall'). rewrite Hrun'.
  destruct r' as [[]|e]; eexists _, (evs ++ evs');
    rewrite app_assoc, forallb_app, Hall, Hall'; split; reflexivity.
Qed.

Lemma only_emit (P : Event -> bool) (ev : Event) : P ev = true -> only P (emit ev).
Proof.
  intros HP env tr. exists (Ok tt), [ev]. split; [reflexivity|].
  cbn [forallb]. rewrite HP. reflexivity.
Qed.

Lemma only_print (P : Event -> bool) (template : string) (args : list PyValue) :
  P (EvPrint template args) = true -> only P (print template args).
Proof. apply only_emit. Qed.

Lemma only_tried (P : Event -> bool) (label : string) :
  P (EvTried label) = true -> only P (tried label).
Proof. apply only_emit. Qed.

Lemma only_sleep (P : Event -> bool) (secs : Z) :
  P (EvSleep secs) = true -> only P (sleep secs).
Proof.
  intros HP. unfold sleep. destruct (secs <? 0); [apply only_raise | apply only_emit, HP].
Qed.

Lemma only_io (P : Event -> bool) (address : string) (req : Request) :
  (forall rep secs, P (EvIO address req rep secs) = true) -> only P (io address req).
Proof.
  intros HP env tr.
  destruct (io_cases address req env tr) as [(r & secs & Hio)|(e & secs & Hio)];
    rewrite Hio; eexists _, [_]; (split; [reflexivity|]);
    cbn [forallb]; rewrite HP; reflexivity.
Qed.

Lemma only_now (P : Event -> bool) : only P now.
Proof. intros env tr. exists (Ok (elapsed tr)), []. rewrite app_nil_r. split; reflexivity. Qed.

Lemma only_safe_get_json (P : Event -> bool) (response : option Response) :
  only P (safe_get_json response).
Proof.
  intros env tr. eexists _, []. rewrite app_nil_r. split; reflexivity.
Qed.

Lemma only_capture (P : Event -> bool) {A : Type} (c : M A) :
  only P c -> only P (capture c).
Proof.
  intros Hc. unfold capture. apply only_try_except.
  - apply only_bind; [exact Hc | intros a; apply only_ret].
  - intros e. apply only_ret.
Qed.

Ltac only_step :=
  match goal with
  | |- only _ (bind _ _) => apply only_bind; [| intros ?]
  | |- only _ (try_except _ _) => apply only_try_except; [| intros ?]
  | |- only _ (finally _ _) => apply only_finally
  | |- only _ (capture _) => apply only_capture
  | |- only _ (ret _) => apply only_ret
  | |- only _ (raise _) => apply only_raise
  | |- only _ (lift _) => apply only_lift
  | |- only _ (print _ _) => apply only_print; reflexivity
  | |- only _ (tried _) => apply only_tried; reflexivity
  | |- only _ (sleep _) => apply only_sleep; reflexivity
  | |- only _ (safe_get_json _) => apply only_safe_get_json
  | |- only _ now => apply only_now
  | |- only _ (match ?x with _ => _ end) => destruct x
  end.

Ltac only_auto := repeat only_step.

(** ** Footprints of the discovery functions *)

Lemma only_client_get (client : Client) (path : string) :
  only (reads_from (base_url client)) (client_get client path).
Proof.
  apply only_io. intros rep secs. cbn. apply String.eqb_refl.
Qed.

Lemma only_client_get_value (client : Client) (url : PyValue) :
  only (reads_from (base_url client)) (client_get_value client url).
Proof.
  destruct url; cbn [client_get_value]; try apply only_raise. apply only_client_get.
Qed.

Lemma only_single_request_method (client : Client) (path : string)
    (extract : PyValue -> Exc (option PyValue)) :
  only (reads_from (base_url client)) (single_request_method client path extract).
Proof.
  unfold single_request_method. only_auto. apply only_client_get.
Qed.

Lemma only_processor_loads (client : Client) (members : list PyValue) :
  forall cpu_loads,
    only (reads_from (base_url client)) (processor_loads client members cpu_loads).
Proof.
  induction members as [|member rest IH]; intros cpu_loads; cbn [processor_loads].
  - apply only_ret.
  - only_auto; try apply IH. apply only_client_get_value.
Qed.

Lemma only_cpu_method_4 (client : Client) :
  only (reads_from (base_url client)) (cpu_method_4 client).
Proof.
  unfold cpu_method_4. only_auto; try apply only_client_get.
  apply only_processor_loads.
Qed.

Lemma only_get_system_identifier (client : Client) :
  only (reads_from (base_url client)) (get_system_identifier client).
Proof.
  unfold get_system_identifier. only_auto. apply only_client_get.
Qed.

Lemma only_get_power_watts (client : Client) (address : string) (identifier : PyValue) :
  only (reads_from (base_url client)) (get_power_watts client address identifier).
Proof.
  unfold get_power_watts. only_auto; apply only_single_request_method.
Qed.

Lemma only_get_cpu_utilization (client : Client) (address : string) (identifier : PyValue) :
  only (reads_from (base_url client)) (get_cpu_utilization client address identifier).
Proof.
  unfold get_cpu_utilization, guarded.
  only_auto; try apply only_single_request_method. apply only_cpu_method_4.
Qed.

Lemma only_get_power_status (client : Client) (address : string) :
  only (reads_from (base_url client)) (get_power_status client address).
Proof.
  unfold get_power_status. only_auto. apply only_client_get.
Qed.

(** ** Footprint of the session manager *)

Lemma only_session_io (address : string) (req : Request) :
  (match req with ReqConnect | ReqLogin _ | ReqLogout => true | _ => false end) = true ->
  only (session_protocol address) (io address req).
Proof.
  intros Hreq. apply only_io. intros rep secs.
  destruct req; try discriminate; cbn; apply String.eqb_refl.
Qed.

Lemma only_attempt (self : RedfishSession.t) :
  only (session_protocol (RedfishSession.self_ip self)) (RedfishSession.attempt self).
Proof.
  unfold RedfishSession.attempt. only_auto; apply only_session_io; reflexivity.
Qed.

Lemma only_enter_loop (self : RedfishSession.t) (remaining : nat) :
  forall retries,
    only (session_protocol (RedfishSession.self_ip self))
      (RedfishSession.enter_loop self remaining retries).
Proof.
  induction remaining as [|k IH]; intros retries; cbn [RedfishSession.enter_loop].
  - only_auto.
  - apply only_try_except; [apply only_attempt|]. intros e.
    only_auto; apply IH.
Qed.

Lemma only_enter (self : RedfishSession.t) :
  only (session_protocol (RedfishSession.self_ip self)) (RedfishSession.__enter__ self).
Proof. apply only_enter_loop. Qed.

Lemma only_exit (self : RedfishSession.t) :
  only (session_protocol (RedfishSession.self_ip self)) (RedfishSession.__exit__ self).
Proof.
  unfold RedfishSession.__exit__. only_auto. apply only_session_io. reflexivity.
Qed.

Lemma reads_observes (address : string) (ev : Event) :
  reads_from address ev = true -> observes ev = true.
Proof. destruct ev as [ip0 [| | | |] rep secs| | | |]; cbn; congruence. Qed.

Lemma session_observes (address : string) (ev : Event) :
  session_protocol address ev = true -> observes ev = true.
Proof. destruct ev as [ip0 [| | | |] rep secs| | | |]; cbn; congruence. Qed.

Lemma observes_read_only (ev : Event) : observes ev = true -> read_only ev = true.
Proof. destruct ev as [ip0 [| | | |] rep secs| | | |]; cbn; congruence. Qed.

(** A [with] block whose body only observes, only observes. *)
Lemma only_with_session_observes {A : Type} (system : System) (body : Client -> M A) :
  (forall client, only observes (body client)) ->
  only observes (with_session system body).
Proof.
  intros Hbody. unfold with_session, with_manager.
  apply only_bind.
  - eapply only_weaken; [apply session_observes | apply only_enter].
  - intros client. apply only_finally; [apply Hbody|].
    eapply only_weaken; [apply session_observes | apply only_exit].
Qed.

(** ** The power controller, whatever the device does *)


Ltac finish_call Hp1 Hp2 :=
  match goal with
  | |- context [RedfishSession.__exit__ ?s ?env ?t] =>
      let rep := fresh "rep" in
      let secs := fresh "secs" in
      let Hexit := fresh "Hexit" in
      destruct (exit_events s env t) as (rep & secs & Hexit); rewrite Hexit
  end;
  rewrite ?app_one_assoc, <- ?app_assoc;
  eexists _, _; (split; [reflexivity|]);
  rewrite ?posts_app, ?Hp1, ?Hp2; cbn [posts flat_map post_of app].

(** The controller sends at most one state-changing request per call, and
    only the one its entry point stands for. *)
Theorem controller_request_discipline (system : System) (desired : DesiredState)
    (force : bool) (env : Env) (tr : Trace) :
  exists outcome evs,
    ensureState system desired force env tr = (outcome, tr ++ evs)
    /\ (posts evs = []
        \/ posts evs
           = [(ip system, REDFISH_RESET_ACTION_PATH, requested_reset desired force)])
    /\ (outcome = Ok false -> posts evs <> [])
    /\ (forall e, outcome = Raise e -> posts evs = []).
Proof.
  destruct (enter_events system env tr) as (evs1 & r1 & Hr1 & Hp1 & Hc).
  destruct r1 as [client|e1].
  2:{ exists (Raise e1), evs1.
      split; [|split; [left; exact Hp1 | split; [discriminate | intros; exact Hp1]]].
      destruct desired; cbn [ensureState];
        unfold power_on_system, power_off_system, with_session, with_manager;
        fold (default_manager system); unfold bind at 1; rewrite Hr1; reflexivity. }
  rewrite (Hc client eq_refl) in *. clear Hc.
  destruct (get_power_status_events {| base_url := ip system |} (ip system) env (tr ++ evs1))
    as (evs2 & r2 & Hr2 & Hp2).
  apply posts_nil_of_steps in Hp2.
  destruct desired; cbn [ensureState requested_reset];
    unfold power_on_system, power_off_system, with_session, with_manager;
    fold (default_manager system);
    unfold bind at 1; rewrite Hr1;
    unfold finally, bind at 1; rewrite Hr2;
    (destruct r2 as [current_state|e2];
     [| finish_call Hp1 Hp2; repeat split; auto; discriminate]);
    (match goal with
     | |- context [py_eq_str current_state ?s] => destruct (py_eq_str current_state s)
     end;
     [ run_m; finish_call Hp1 Hp2; repeat split; auto; discriminate |]);
    unfold bind at 1, lift;
    (destruct (py_startswith current_state "Unknown") as [unknown|e3];
     [| finish_call Hp1 Hp2; repeat split; auto; discriminate]);
    destruct unknown; run_m; cbn [base_url];
    (step_io;
     [ destruct (status_accepted r) as [[|]|e4]; cbn iota beta |]);
    finish_call Hp1 Hp2;
    (split; [right; reflexivity|]); split; intros; discriminate.
Qed.



(** When the read of the power state fails at the transport level, the
    controller does not go on with a warning as it does for an unreadable
    answer: [get_power_status] reads its unassigned local, and the call
    ends in [UnboundLocalError] after the logout, without any
    state-changing request. *)
Theorem controller_stops_when_status_read_raises (system : System)
    (desired : DesiredState) (force : bool) (env : Env) (tr : Trace)
    (client : Client) (tr1 : Trace) (e : LibError) :
  RedfishSession.__enter__ (default_manager system) env tr = (Ok client, tr1) ->
  respond env tr1 (ip system) (ReqGet REDFISH_SYSTEM_PATH) = Raised e ->
  exists evs rep secs,
    ensureState system desired force env tr
      = (Raise (Lib UnboundLocalError),
         tr ++ evs ++ [EvIO (ip system) ReqLogout rep secs])
    /\ posts evs = [].
Proof.
  intros Henter Hresp.
  destruct (enter_events system env tr) as (evs1 & r1 & Hr1 & Hp1 & Hc).
  rewrite Henter in Hr1. inversion Hr1; subst tr1 r1. clear Hr1.
  rewrite (Hc client eq_refl) in *. clear Hc.
  assert (Hstatus :
    get_power_status {| base_url := ip system |} (ip system) env (tr ++ evs1)
    = (Raise (Lib UnboundLocalError),
       (tr ++ evs1) ++ [EvIO (ip system) (ReqGet REDFISH_SYSTEM_PATH) (Raised e)
                          (latency env (tr ++ evs1) (ip system)
                             (ReqGet REDFISH_SYSTEM_PATH))])).
  { unfold get_power_status. run_m. unfold io. cbn [base_url]. rewrite Hresp. reflexivity. }
  destruct desired; cbn [ensureState];
    unfold power_on_system, power_off_system, with_session, with_manager;
    fold (default_manager system);
    unfold bind at 1; rewrite Henter;
    unfold finally, bind at 1; rewrite Hstatus;
    match goal with
    | |- context [RedfishSession.__exit__ ?s env ?t] =>
        destruct (exit_events s env t) as (rep & secs & Hexit); rewrite Hexit
    end;
    rewrite ?app_one_assoc, <- ?app_assoc;
    exists (evs1 ++ [EvIO (ip system) (ReqGet REDFISH_SYSTEM_PATH) (Raised e)
                       (latency env (tr ++ evs1) (ip system) (ReqGet REDFISH_SYSTEM_PATH))]),
      rep, secs;
    rewrite <- ?app_assoc; (split; [reflexivity|]);
    rewrite posts_app, Hp1; reflexivity.
Qed.

(** A device that accepts the session and then drops every read. *)
Lemma controller_stops_when_status_read_raises_witness :
  exists evs rep secs,
    ensureState healthy_target DesiredOff true
      (sample_env (fun _ _ req =>
                     match req with
                     | ReqGet _ => Raised RedfishConnectionError
                     | _ => Returned None
                     end) 1) []
      = (Raise (Lib UnboundLocalError),
         [] ++ evs ++ [EvIO (ip healthy_target) ReqLogout rep secs])
    /\ posts evs = [].
Proof.
  apply (controller_stops_when_status_read_raises healthy_target DesiredOff true _ []
           {| base_url := "10.0.0.1" |}
           [EvIO "10.0.0.1" ReqConnect (Returned None) 1;
            EvIO "10.0.0.1" (ReqLogin SessionAuth) (Returned None) 1]
           RedfishConnectionError);
    reflexivity.
Defined.

(** ** Discovery, whatever the device does *)

Lemma single_request_method_event (client : Client) (path : string)
    (extract : PyValue -> Exc (option PyValue)) (env : Env) (tr : Trace) :
  exists found rep secs,
    single_request_method client path extract env tr
      = (Ok found, tr ++ [EvIO (base_url client) (ReqGet path) rep secs]).
Proof.
  unfold single_request_method. run_m. step_io.
  - destruct (_safe_get_json (json_loads env) r) as [data|e0]; cbn iota beta.
    + destruct (extract data) as [found|e1]; cbn iota beta.
      * eexists _, _, _. reflexivity.
      * destruct e1 as [[]| |]; eexists _, _, _; reflexivity.
    + destruct e0 as [[]| |]; eexists _, _, _; reflexivity.
  - destruct e; eexists _, _, _; reflexivity.
Qed.

(** [get_power_watts] sends one request per probe it tries, to the
    endpoints of the probes in their declared order, and so at most three
    requests; it never raises. *)
Theorem power_requests_follow_probe_order (client : Client) (address : string)
    (identifier : PyValue) (env : Env) (tr : Trace) :
  exists watts evs k,
    get_power_watts client address identifier env tr = (Ok watts, tr ++ evs)
    /\ (1 <= k <= 3)%nat
    /\ probes_tried evs = firstn k (map probe_label (power_probes client))
    /\ steps evs = map StepGet (firstn k (map probe_path (power_probes client))).
Proof.
  unfold get_power_watts. run_m.
  match goal with
  | |- context [single_request_method client ?p ?x env ?t] =>
      destruct (single_request_method_event client p x env t)
        as (found1 & rep1 & secs1 & Hrun1); rewrite Hrun1
  end.
  destruct found1 as [watts|]; cbn iota beta.
  { exists watts, [EvTried REDFISH_POWER_PATH;
                   EvIO (base_url client) (ReqGet REDFISH_POWER_PATH) rep1 secs1], 1%nat.
    rewrite app_one_assoc. repeat split; lia. }
  match goal with
  | |- context [single_request_method client ?p ?x env ?t] =>
      destruct (single_request_method_event client p x env t)
        as (found2 & rep2 & secs2 & Hrun2); rewrite Hrun2
  end.
  destruct found2 as [watts|]; cbn iota beta.
  { eexists watts, _, 2%nat.
    rewrite !app_one_assoc, <- ?app_assoc. cbn [app].
    split; [reflexivity|]. repeat split; lia. }
  match goal with
  | |- context [single_request_method client ?p ?x env ?t] =>
      destruct (single_request_method_event client p x env t)
        as (found3 & rep3 & secs3 & Hrun3); rewrite Hrun3
  end.
  destruct found3 as [watts|]; cbn iota beta;
    eexists _, _, 3%nat;
    rewrite !app_one_assoc, <- ?app_assoc; cbn [app];
    (split; [reflexivity|]); repeat split; lia.
Qed.

Lemma get_system_identifier_event (client : Client) (env : Env) (tr : Trace) :
  exists identifier model rep secs,
    get_system_identifier client env tr
      = (Ok (identifier, model),
         tr ++ [EvIO (base_url client) (ReqGet REDFISH_SYSTEM_PATH) rep secs]).
Proof.
  unfold get_system_identifier. run_m. step_io.
  - destruct (_safe_get_json (json_loads env) r) as [data|e0]; cbn iota beta.
    + destruct (truthy data); [|eexists _, _, _, _; reflexivity].
      match goal with
      | |- context [match ?c with Ok _ => _ | Raise _ => _ end] => destruct c as [[id model]|e1]
      end; eexists _, _, _, _; reflexivity.
    + eexists _, _, _, _; reflexivity.
  - eexists _, _, _, _; reflexivity.
Qed.

(** The three discovery functions and the power state read only ever send
    GET requests, and only to the address their client is bound to: no
    login, no logout, no state-changing request, no write to the sink; and
    the three discovery functions never raise. *)
Theorem discovery_only_reads (client : Client) (address : string) (identifier : PyValue)
    (env : Env) (tr : Trace) :
  (exists names evs,
      get_system_identifier client env tr = (Ok names, tr ++ evs)
      /\ forallb (reads_from (base_url client)) evs = true)
  /\ (exists watts evs,
      get_power_watts client address identifier env tr = (Ok watts, tr ++ evs)
      /\ forallb (reads_from (base_url client)) evs = true)
  /\ (exists cpu evs,
      get_cpu_utilization client address identifier env tr = (Ok cpu, tr ++ evs)
      /\ forallb (reads_from (base_url client)) evs = true)
  /\ (exists outcome evs,
      get_power_status client address env tr = (outcome, tr ++ evs)
      /\ forallb (reads_from (base_url client)) evs = true).
Proof.
  repeat split.
  - destruct (only_get_system_identifier client env tr) as (r & evs & Hrun & Hall).
    destruct (get_system_identifier_event client env tr) as (i & m & rep & secs & Hev).
    rewrite Hev in Hrun. injection Hrun as <- Htr.
    exists (i, m), evs. rewrite Hev, Htr. split; [reflexivity | exact Hall].
  - destruct (only_get_power_watts client address identifier env tr)
      as (r & evs & Hrun & Hall).
    destruct (get_power_watts_discovery client address identifier env tr)
      as (v & tr' & tried & Hd & _).
    rewrite Hd in Hrun. injection Hrun as <- Htr.
    exists v, evs. rewrite Hd, Htr. split; [reflexivity | exact Hall].
  - destruct (only_get_cpu_utilization client address identifier env tr)
      as (r & evs & Hrun & Hall).
    destruct (get_cpu_utilization_discovery client address identifier env tr)
      as (v & tr' & tried & Hd & _).
    rewrite Hd in Hrun. injection Hrun as <- Htr.
    exists v, evs. rewrite Hd, Htr. split; [reflexivity | exact Hall].
  - destruct (only_get_power_status client address env tr) as (r & evs & Hrun & Hall).
    exists r, evs. split; assumption.
Qed.


Example identifier_of_sample_device :
  fst (get_system_identifier {| base_url := "10.0.0.1" |} (sample_env healthy_device 1) [])
  = Ok (PyStr "", PyStr "Unknown").
Proof. reflexivity. Qed.

(** ** Workers *)

Lemma format_fixed_number (v : PyValue) :
  format_fixed v = Ok tt -> isinstance_number v = true.
Proof. destruct v; cbn; congruence. Qed.

Lemma format_fixed_error (v : PyValue) (e : PyExn) :
  format_fixed v = Raise e -> e = Lib ValueError \/ e = Lib TypeError.
Proof. destruct v; cbn; intros H; inversion H; auto. Qed.

Lemma only_get_system_metrics (system : System) :
  only observes (get_system_metrics system).
Proof.
  unfold get_system_metrics. apply only_with_session_observes. intros client.
  only_auto.
  - eapply only_weaken; [apply reads_observes | apply only_get_system_identifier].
  - eapply only_weaken; [apply reads_observes | apply only_get_power_watts].
  - eapply only_weaken; [apply reads_observes | apply only_get_cpu_utilization].
Qed.

Ltac open_session system env tr :=
  let evs1 := fresh "evs" in
  let r1 := fresh "r" in
  let Hr1 := fresh "Henter" in
  let Hc := fresh "Hclient" in
  destruct (enter_events system env tr) as (evs1 & r1 & Hr1 & _ & Hc);
  unfold with_session, with_manager; fold (default_manager system);
  unfold bind at 1; rewrite Hr1;
  destruct r1 as [?client|?e];
  [ rewrite (Hc _ eq_refl) in *; clear Hc; unfold finally | ].

Ltac discover_all :=
  repeat match goal with
         | |- context [get_system_identifier ?cl ?env ?t] =>
             let H := fresh "Hid" in
             let id := fresh "id" in
             let model := fresh "model" in
             let rep := fresh "rep" in
             let secs := fresh "secs" in
             destruct (get_system_identifier_event cl env t) as (id & model & rep & secs & H);
             rewrite H; clear H
         | |- context [get_power_watts ?cl ?a ?i ?env ?t] =>
             let H := fresh "Hw" in
             let w := fresh "w" in
             let tr' := fresh "tr" in
             let tried := fresh "tried" in
             destruct (get_power_watts_discovery cl a i env t) as (w & tr' & tried & H & _);
             rewrite H; clear H
         | |- context [get_cpu_utilization ?cl ?a ?i ?env ?t] =>
             let H := fresh "Hc" in
             let c := fresh "c" in
             let tr' := fresh "tr" in
             let tried := fresh "tried" in
             destruct (get_cpu_utilization_discovery cl a i env t)
               as (c & tr' & tried & H & _);
             rewrite H; clear H
         | |- context [RedfishSession.__exit__ ?s ?env ?t] =>
             let H := fresh "Hexit" in
             let rep := fresh "rep" in
             let secs := fresh "secs" in
             destruct (exit_events s env t) as (rep & secs & H); rewrite H; clear H
         end.

Lemma get_system_metrics_outcome (system : System) (env : Env) (tr : Trace)
    (outcome : Exc Metrics) :
  fst (get_system_metrics system env tr) = outcome ->
  (exists e tr1,
      RedfishSession.__enter__ (default_manager system) env tr = (Raise e, tr1)
      /\ outcome = Raise e)
  \/ (exists w c,
      outcome = Ok {| metrics_ip := ip system; watts := w; cpu_load := c |}
      /\ none_or_number c = true)
  \/ (exists e,
      outcome = Raise e /\ (e = Lib ValueError \/ e = Lib TypeError)).
Proof.
  unfold get_system_metrics. open_session system env tr.
  2:{ intros <-. left. eexists _, _. split; reflexivity. }
  unfold bind at 1. discover_all.
  unfold bind at 1. cbn [fst]. discover_all.
  unfold bind at 1. discover_all.
  match goal with
  | |- context [format_fixed ?x] => rename x into cpu
  end.
  destruct (is_none cpu) eqn:Hnone.
  - run_m. discover_all. cbn [fst]. intros <-. right. left. eexists _, _.
    split; [reflexivity|].
    unfold none_or_number. rewrite Hnone. reflexivity.
  - unfold bind at 1, lift. destruct (format_fixed cpu) as [[]|e] eqn:Hfmt.
    + run_m. discover_all. cbn [fst]. intros <-. right. left. eexists _, _.
      split; [reflexivity|].
      unfold none_or_number. rewrite (format_fixed_number _ Hfmt). apply orb_true_r.
    + discover_all. cbn [fst]. intros <-. right. right. exists e.
      split; [reflexivity|].
      exact (format_fixed_error _ _ Hfmt).
Qed.

(** What the worker of [monitor_power] can do for one target.  It sends no
    state-changing request and writes nothing to the sink.  It raises only
    what the session manager raised while opening the session, or the
    [ValueError] or [TypeError] of formatting a CPU value that is not a
    number; and a result it returns is for the target's address and holds
    a CPU reading that is a number or [None]. *)
Theorem monitoring_worker_outcomes (system : System) (env : Env) (tr : Trace) :
  exists outcome evs,
    get_system_metrics system env tr = (outcome, tr ++ evs)
    /\ forallb observes evs = true
    /\ (forall m, outcome = Ok m ->
          metrics_ip m = ip system /\ none_or_number (cpu_load m) = true)
    /\ (forall e, outcome = Raise e ->
          (exists tr1,
              RedfishSession.__enter__ (default_manager system) env tr = (Raise e, tr1))
          \/ e = Lib ValueError \/ e = Lib TypeError).
Proof.
  destruct (only_get_system_metrics system env tr) as (outcome & evs & Hrun & Hall).
  exists outcome, evs. split; [exact Hrun|]. split; [exact Hall|].
  assert (Hfst : fst (get_system_metrics system env tr) = outcome)
    by (rewrite Hrun; reflexivity).
  pose proof (get_system_metrics_outcome system env tr outcome Hfst) as Hout.
  split.
  - intros m ->.
    destruct Hout as [(e & tr1 & _ & H)|[(w & c & H & Hc)|(e & H & _)]];
      try discriminate.
    injection H as ->. split; [reflexivity | exact Hc].
  - intros e ->.
    destruct Hout as [(e0 & tr1 & Henter & H)|[(w & c & H & _)|(e0 & H & He)]];
      try discriminate; injection H as ->.
    + left. eauto.
    + right. exact He.
Qed.

(** ** The [--get-cpu] batch command *)

Lemma only_get_cpu (system : System) : only observes (get_cpu system).
Proof.
  unfold get_cpu. apply only_try_except.
  - apply only_with_session_observes. intros client. only_auto.
    + eapply only_weaken; [apply reads_observes | apply only_get_system_identifier].
    + eapply only_weaken; [apply reads_observes | apply only_get_cpu_utilization].
  - intros e. only_auto.
Qed.

Lemma get_cpu_value (system : System) (env : Env) (tr : Trace) (outcome : Exc PyValue) :
  fst (get_cpu system env tr) = outcome ->
  exists v, outcome = Ok v /\ none_or_number v = true.
Proof.
  unfold get_cpu, try_except. open_session system env tr.
  2:{ destruct e as [[]| |]; run_m; cbn [fst]; intros <-; exists PyNone; split; reflexivity. }
  unfold bind at 1. discover_all.
  unfold bind at 1. cbn [fst]. discover_all.
  match goal with
  | |- context [format_fixed ?x] => rename x into cpu
  end.
  destruct (is_none cpu) eqn:Hnone.
  - run_m. discover_all. cbn [fst]. intros <-. exists PyNone. split; reflexivity.
  - unfold bind at 1, lift. destruct (format_fixed cpu) as [[]|e] eqn:Hfmt.
    + run_m. discover_all. cbn [fst]. intros <-. exists cpu. split; [reflexivity|].
      unfold none_or_number. rewrite (format_fixed_number _ Hfmt). apply orb_true_r.
    + discover_all. destruct e as [[]| |]; run_m; cbn [fst]; intros <-;
        exists PyNone; split; reflexivity.
Qed.

Lemma get_cpu_returns (system : System) (env : Env) (tr : Trace) :
  exists v evs,
    get_cpu system env tr = (Ok v, tr ++ evs)
    /\ forallb observes evs = true
    /\ none_or_number v = true.
Proof.
  destruct (only_get_cpu system env tr) as (outcome & evs & Hrun & Hall).
  destruct (get_cpu_value system env tr outcome) as (v & -> & Hv).
  { rewrite Hrun. reflexivity. }
  eauto.
Qed.

(** A fan-out whose worker always returns: one result per item, in order,
    each with what the worker guarantees. *)
Lemma run_workers_all {A B} (P : Event -> bool) (Q : B -> Prop) (fn : A -> M B)
    (items : list A) :
  (forall x env tr, exists y evs,
      fn x env tr = (Ok y, tr ++ evs) /\ forallb P evs = true /\ Q y) ->
  forall env tr, exists results evs,
    run_workers fn items env tr = (Ok (map Ok results), tr ++ evs)
    /\ forallb P evs = true
    /\ Forall Q results
    /\ length results = length items.
Proof.
  intros Hfn. induction items as [|x items IH]; intros env tr.
  - exists [], []. rewrite app_nil_r. repeat split. constructor.
  - cbn [run_workers]. unfold capture. run_m.
    destruct (Hfn x env tr) as (y & evs1 & Hy & Hall1 & HQ). rewrite Hy.
    destruct (IH env (tr ++ evs1)) as (results & evs2 & Hrun & Hall2 & HQs & Hlen).
    rewrite Hrun.
    exists (y :: results), (evs1 ++ evs2).
    rewrite app_assoc, forallb_app, Hall1, Hall2. cbn [map length]. rewrite Hlen.
    repeat split. constructor; assumption.
Qed.

Lemma collect_returned {B} (results : list B) : collect (map Ok results) = Ok results.
Proof.
  induction results as [|b results IH]; [reflexivity|].
  cbn [map collect]. rewrite IH. reflexivity.
Qed.

(** The float64 conversion of readings that are numbers cannot fail. *)
Lemma float64_of_numbers (float_of_str : string -> Exc Q) (values : list PyValue) :
  Forall (fun v => none_or_number v = true) values ->
  exc_map (np_float64 float_of_str) (not_none values)
    = Ok (map number_value (not_none values)).
Proof.
  unfold not_none. induction 1 as [|v values Hv _ IH]; [reflexivity|].
  cbn [filter]. destruct v as [|b|q|s|l|d]; cbn in Hv; try discriminate;
    cbn [is_none negb exc_map np_float64 exc_bind map number_value];
    try exact IH; rewrite IH; reflexivity.
Qed.

(** The [--get-cpu] command over N targets: every worker returns, so the
    fan-out yields N readings in target order; each reading is [None] or a
    number, so building the float64 array of the readings that are not
    [None] cannot fail, and the array holds exactly those readings.  The
    command only reads from the devices. *)
Theorem cpu_batch_readings (ilo_systems : list System) (workers : Z)
    (env : Env) (tr : Trace) :
  0 < workers ->
  exists results evs,
    get_cpu_readings ilo_systems workers env tr
      = (Ok (results, map number_value (not_none results)), tr ++ evs)
    /\ length results = length ilo_systems
    /\ Forall (fun v => none_or_number v = true) results
    /\ forallb observes evs = true.
Proof.
  intros Hworkers. unfold get_cpu_readings, executor_map.
  destruct (Z.leb_spec workers 0) as [Hle|_]; [lia|].
  destruct (run_workers_all observes (fun v => none_or_number v = true) get_cpu
              ilo_systems get_cpu_returns env tr)
    as (results & evs & Hrun & Hall & Hvalues & Hlen).
  exists results, evs.
  unfold bind at 1. unfold bind at 1. rewrite Hrun.
  unfold lift. rewrite collect_returned.
  unfold bind, np_array_float64, ret.
  rewrite (float64_of_numbers _ _ Hvalues). auto.
Qed.

Lemma cpu_batch_readings_witness :
  exists results evs,
    get_cpu_readings [healthy_target; unreachable_target] 10
        (sample_env mixed_fleet 1) []
      = (Ok (results, map number_value (not_none results)), [] ++ evs)
    /\ length results = length [healthy_target; unreachable_target]
    /\ Forall (fun v => none_or_number v = true) results
    /\ forallb observes evs = true.
Proof.
  apply (cpu_batch_readings [healthy_target; unreachable_target] 10
           (sample_env mixed_fleet 1) []).
  reflexivity.
Defined.

(** ** Monitoring runs *)

Lemma only_run_workers (P : Event -> bool) {A B : Type} (fn : A -> M B) (items : list A) :
  (forall x, only P (fn x)) -> only P (run_workers fn items).
Proof.
  intros Hfn. induction items as [|x items IH]; cbn [run_workers]; only_auto.
  - apply Hfn.
  - exact IH.
Qed.

Lemma only_executor_map (P : Event -> bool) {A B : Type} (workers : Z) (fn : A -> M B)
    (items : list A) :
  (forall x, only P (fn x)) -> only P (executor_map workers fn items).
Proof.
  intros Hfn. unfold executor_map. destruct (workers <=? 0); only_auto.
  apply only_run_workers, Hfn.
Qed.

Lemma only_np_array_float64 (P : Event -> bool) (values : list PyValue) :
  only P (np_array_float64 values).
Proof.
  intros env tr. eexists _, []. rewrite app_nil_r. split; reflexivity.
Qed.

Lemma only_save_power_data_to_csv (csv_path : string) (timestamp : Z)
    (total avg : Q) (avg_cpu_load : option Q) (valid_readings total_servers : nat) :
  only (monitoring_footprint csv_path)
    (save_power_data_to_csv csv_path timestamp total avg avg_cpu_load
       valid_readings total_servers).
Proof.
  intros env tr. unfold save_power_data_to_csv.
  destruct (sink_accepts env tr csv_path); eexists _, _; (split; [reflexivity|]);
    cbn; rewrite String.eqb_refl; reflexivity.
Qed.

Lemma observes_monitoring (output_csv : string) (ev : Event) :
  observes ev = true -> monitoring_footprint output_csv ev = true.
Proof. destruct ev as [ip0 [| | | |] rep secs| | | |]; cbn; congruence. Qed.

Lemma only_monitor_power_tick (ilo_systems : list System) (output_csv : string)
    (workers current_time : Z) :
  only (monitoring_footprint output_csv)
    (monitor_power_tick ilo_systems output_csv workers current_time).
Proof.
  unfold monitor_power_tick.
  repeat first
    [ apply only_save_power_data_to_csv
    | apply only_np_array_float64
    | apply only_executor_map; intros system;
      eapply only_weaken; [apply observes_monitoring | apply only_get_system_metrics]
    | only_step ].
Qed.

Lemma only_monitoring_loop (P : Event -> bool) (tick : Z -> M unit)
    (interval_minutes : Z) (iterations : option Z) (fuel : nat) :
  (forall current_time, only P (tick current_time)) ->
  (forall template args, P (EvPrint template args) = true) ->
  (forall secs, P (EvSleep secs) = true) ->
  forall iteration,
    only P (monitoring_loop tick interval_minutes iterations fuel iteration).
Proof.
  intros Htick Hprint Hsleep.
  induction fuel as [|fuel IH]; intros iteration; cbn [monitoring_loop];
    destruct (loop_continues iterations iteration); try apply only_ret.
  apply only_bind; [apply only_now | intros current_time].
  apply only_bind; [apply Htick | intros _].
  destruct (limit_reached iterations (iteration + 1)); [apply only_ret|].
  apply only_bind; [apply only_print, Hprint | intros _].
  apply only_bind; [apply only_sleep, Hsleep | intros _].
  apply IH.
Qed.

Lemma only_monitor_power (ilo_systems : list System) (interval_minutes : Z)
    (output_csv : string) (workers : Z) (iterations : option Z) (fuel : nat) :
  only (monitoring_footprint output_csv)
    (monitor_power ilo_systems interval_minutes output_csv workers iterations fuel).
Proof.
  unfold monitor_power. only_auto.
  apply only_monitoring_loop; try reflexivity.
  intros current_time. apply only_monitor_power_tick.
Qed.

Lemma monitoring_footprint_posts (output_csv : string) (evs : list Event) :
  forallb (monitoring_footprint output_csv) evs = true -> posts evs = [].
Proof.
  induction evs as [|ev evs IH]; [reflexivity|].
  cbn [forallb]. intros H. apply andb_prop in H as [Hev Hevs].
  unfold posts in *. cbn [flat_map]. rewrite (IH Hevs), app_nil_r.
  destruct ev as [ip0 [| | | |] rep secs| | | |]; cbn in *; congruence.
Qed.

(** A monitoring run never raises, whatever the devices and the file
    system do; it sends no state-changing request to any device; and every
    write it makes appends one row to the file it was given. *)
Theorem monitor_power_contained (ilo_systems : list System) (interval_minutes : Z)
    (output_csv : string) (workers : Z) (iterations : option Z) (fuel : nat)
    (env : Env) (tr : Trace) :
  exists left_loop evs,
    monitor_power ilo_systems interval_minutes output_csv workers iterations fuel env tr
      = (Ok left_loop, tr ++ evs)
    /\ posts evs = []
    /\ Forall (fun w => fst w = output_csv /\ length (snd w) = 1%nat) (sink_writes evs).
Proof.
  destruct (only_monitor_power ilo_systems interval_minutes output_csv workers
              iterations fuel env tr) as (outcome & evs & Hrun & Hall).
  assert (Hok : exists left_loop, outcome = Ok left_loop).
  { revert Hrun. unfold monitor_power. run_m.
    destruct (monitoring_loop _ _ _ _ _ env _) as [[b|e] tr1];
      intros H; injection H as <- _; eauto. }
  destruct Hok as (left_loop & ->).
  exists left_loop, evs. split; [exact Hrun|].
  split; [exact (monitoring_footprint_posts _ _ Hall)|].
  clear Hrun. induction evs as [|ev evs IH]; [constructor|].
  cbn [forallb] in Hall. apply andb_prop in Hall as [Hev Hevs].
  unfold sink_writes. cbn [flat_map]. apply Forall_app. split; [|exact (IH Hevs)].
  destruct ev as [ip0 req rep secs| | | |path rows accepted]; cbn [sink_of];
    try constructor; [|constructor].
  cbn in Hev. apply andb_prop in Hev as [Hpath Hrows].
  apply String.eqb_eq in Hpath. apply Nat.eqb_eq in Hrows. split; assumption.
Qed.



(** ** The worker of [monitor_full] *)

Section Keeps.

Context {S : Type}.
Variable P : Event -> bool.
Variable R : S -> S -> Prop.
Hypothesis R_refl : forall s, R s s.
Hypothesis R_trans : forall s1 s2 s3, R s1 s2 -> R s2 s3 -> R s1 s3.

Lemma keeps_ret {A : Type} (a : A) : keeps P R (@upd_ret S A a).
Proof.
  intros s env tr. exists (Ok a), s, []. rewrite app_nil_r. repeat split. apply R_refl.
Qed.

Lemma keeps_current : keeps P R (@current S).
Proof.
  intros s env tr. exists (Ok s), s, []. rewrite app_nil_r. repeat split. apply R_refl.
Qed.

Lemma keeps_assign (f : S -> S) : (forall s, R s (f s)) -> keeps P R (assign f).
Proof.
  intros Hf s env tr. exists (Ok tt), (f s), []. rewrite app_nil_r. repeat split. apply Hf.
Qed.

Lemma keeps_call {A : Type} (c : M A) : only P c -> keeps P R (@call S A c).
Proof.
  intros Hc s env tr. unfold call.
  destruct (Hc env tr) as (r & evs & Hrun & Hall). rewrite Hrun.
  exists r, s, evs. repeat split; [exact Hall | apply R_refl].
Qed.

Lemma keeps_bind {A B : Type} (c : Upd S A) (k : A -> Upd S B) :
  keeps P R c -> (forall a, keeps P R (k a)) -> keeps P R (upd_bind c k).
Proof.
  intros Hc Hk s env tr. unfold upd_bind.
  destruct (Hc s env tr) as (r & s1 & evs & Hrun & Hall & HR). rewrite Hrun.
  destruct r as [a|e].
  - destruct (Hk a s1 env (tr ++ evs)) as (r' & s2 & evs' & Hrun' & Hall' & HR').
    exists r', s2, (evs ++ evs'). rewrite Hrun', app_assoc, forallb_app, Hall, Hall'.
    repeat split. eapply R_trans; eassumption.
  - exists (Raise e), s1, evs. repeat split; assumption.
Qed.

End Keeps.

Lemma same_reading_refl (s : Detailed.t) : same_reading s s.
Proof. split; reflexivity. Qed.

Lemma same_reading_trans (s1 s2 s3 : Detailed.t) :
  same_reading s1 s2 -> same_reading s2 s3 -> same_reading s1 s3.
Proof. intros [H1 H2] [H3 H4]. split; congruence. Qed.

Ltac keeps_step refl trans :=
  match goal with
  | |- keeps _ _ (upd_bind _ _) => apply (keeps_bind _ _ trans); [| intros ?]
  | |- keeps _ _ (upd_ret _) => apply (keeps_ret _ _ refl)
  | |- keeps _ _ current => apply (keeps_current _ _ refl)
  | |- keeps _ _ (assign _) => apply keeps_assign; intros ?; first [exact I | split; reflexivity]
  | |- keeps _ _ (call _) => apply (keeps_call _ _ refl)
  | |- keeps _ _ (if ?c then _ else _) => destruct c
  end.

Ltac keeps_reading := repeat keeps_step same_reading_refl same_reading_trans.

Lemma keeps_anything {S A : Type} (P : Event -> bool) (R : S -> S -> Prop) (c : Upd S A) :
  keeps P R c -> keeps P (fun _ _ => True) c.
Proof.
  intros Hc s env tr. destruct (Hc s env tr) as (r & s' & evs & Hrun & Hall & _).
  exists r, s', evs. auto.
Qed.

Lemma keeps_detailed_cpu (client : Client) (address : string) (identifier : PyValue) :
  keeps (reads_from (base_url client)) same_reading
    (detailed_cpu client address identifier).
Proof.
  unfold detailed_cpu. keeps_reading; only_auto.
  - apply only_client_get.
  - apply only_get_cpu_utilization.
Qed.

Lemma keeps_detailed_report (client : Client) (address : string) :
  keeps (reads_from (base_url client)) same_reading (detailed_report address).
Proof. unfold detailed_report. keeps_reading; only_auto. Qed.

Lemma only_get_system_metrics_detailed (system : System) :
  only observes (get_system_metrics_detailed system).
Proof.
  unfold get_system_metrics_detailed. apply only_with_session_observes. intros client.
  intros env tr. unfold upd_try.
  assert (Hbody : keeps (reads_from (base_url client)) (fun _ _ => True)
                    (detailed_body client (ip system))).
  { unfold detailed_body.
    repeat keeps_step (fun _ : Detailed.t => I)
                      (fun (_ _ _ : Detailed.t) (_ _ : True) => I);
      only_auto.
    - apply only_get_system_identifier.
    - apply only_get_power_watts.
    - eapply keeps_anything, keeps_detailed_cpu.
    - eapply keeps_anything, keeps_detailed_report. }
  match goal with
  | |- context [detailed_body _ _ ?s env tr] =>
      destruct (Hbody s env tr) as (r & s' & evs & Hrun & Hall & _)
  end.
  rewrite Hrun. assert (Hobs : forallb observes evs = true).
  { rewrite forallb_forall in *. intros ev Hin. eapply reads_observes, Hall, Hin. }
  destruct r as [[]|e].
  - eauto.
  - run_m. eexists _, (evs ++ [_]). rewrite app_assoc. split; [reflexivity|].
    rewrite forallb_app, Hobs. reflexivity.
Qed.

(** The worker of [monitor_full] fails only where the session manager
    fails: an exception of [__enter__] leaves the worker as it is, and once
    the session is open the worker returns a result for the target
    whatever happens next.  The power reading of that result is the value
    [get_power_watts] returned on the session, also when the steps that
    follow it, the CPU discovery or the formatting of the output, raise.
    The worker sends no state-changing request and writes nothing to the
    sink. *)
Theorem detailed_worker_keeps_power_reading (system : System) (env : Env) (tr : Trace) :
  (exists outcome evs,
      get_system_metrics_detailed system env tr = (outcome, tr ++ evs)
      /\ forallb observes evs = true)
  /\ ((exists e tr1,
          RedfishSession.__enter__ (default_manager system) env tr = (Raise e, tr1)
          /\ get_system_metrics_detailed system env tr = (Raise e, tr1))
      \/ (exists client tr1 id_model tr2 w tr3 result evs,
          RedfishSession.__enter__ (default_manager system) env tr = (Ok client, tr1)
          /\ get_system_identifier client env tr1 = (Ok id_model, tr2)
          /\ get_power_watts client (ip system) (fst id_model) env tr2 = (Ok w, tr3)
          /\ get_system_metrics_detailed system env tr = (Ok result, tr3 ++ evs)
          /\ Detailed.ip result = ip system
          /\ Detailed.watts result = w)).
Proof.
  split; [apply only_get_system_metrics_detailed|].
  destruct (RedfishSession.__enter__ (default_manager system) env tr) as [[client|e] tr1]
    eqn:Henter.
  2:{ left. exists e, tr1. split; [reflexivity|].
      unfold get_system_metrics_detailed, with_session, with_manager.
      fold (default_manager system). unfold bind. rewrite Henter. reflexivity. }
  right.
  destruct (get_system_identifier_event client env tr1) as (id & model & rep & secs & Hid).
  destruct (get_power_watts_discovery client (ip system) id env
              (tr1 ++ [EvIO (base_url client) (ReqGet REDFISH_SYSTEM_PATH) rep secs]))
    as (w & tr3 & tried & Hw & _).
  pose proof (keeps_bind _ _ same_reading_trans _ _
                (keeps_detailed_cpu client (ip system) id)
                (fun _ => keeps_detailed_report client (ip system))) as Htail.
  specialize (Htail
    (Detailed.set_watts w
       {| Detailed.ip := ip system; Detailed.watts := PyNone;
          Detailed.cpu_load := PyNone; Detailed.system_usage := PyNone |}) env tr3).
  destruct Htail as (r & result & evs & Hrun & _ & Hip & Hwatts).
  cbn in Hip, Hwatts.
  assert (Hbody : detailed_body client (ip system)
            {| Detailed.ip := ip system; Detailed.watts := PyNone;
               Detailed.cpu_load := PyNone; Detailed.system_usage := PyNone |} env tr1
          = (r, result, tr3 ++ evs)).
  { unfold detailed_body. unfold upd_bind at 1. unfold call at 1. rewrite Hid.
    cbn [fst]. unfold upd_bind at 1. unfold call at 1. rewrite Hw.
    unfold upd_bind at 1. unfold assign at 1. exact Hrun. }
  exists client, tr1, (id, model),
    (tr1 ++ [EvIO (base_url client) (ReqGet REDFISH_SYSTEM_PATH) rep secs]), w, tr3, result.
  unfold get_system_metrics_detailed, with_session, with_manager.
  fold (default_manager system). unfold bind at 1. rewrite Henter.
  unfold finally, upd_try. rewrite Hbody.
  destruct r as [[]|e].
  - destruct (exit_events (default_manager system) env (tr3 ++ evs))
      as (rep' & secs' & Hexit).
    rewrite Hexit. eexists (evs ++ [_]). rewrite app_assoc.
    repeat split; assumption.
  - run_m.
    match goal with
    | |- context [RedfishSession.__exit__ ?s env ?t] =>
        destruct (exit_events s env t) as (rep' & secs' & Hexit)
    end.
    rewrite Hexit. eexists (evs ++ [_; _]).
    rewrite <- !app_assoc. cbn [app].
    repeat split; assumption.
Qed.

(** ** Sorting key for addresses *)

Lemma split_no_dot (s : string) : no_dot s = true -> split "."%char s = [s].
Proof.
  induction s as [|c s IH]; [reflexivity|].
  cbn [no_dot split]. intros H. apply andb_prop in H as [Hc Hs].
  destruct (Ascii.eqb c "."%char); [discriminate|]. rewrite (IH Hs). reflexivity.
Qed.

Lemma split_piece (s t : string) :
  no_dot s = true -> split "."%char (s ++ "." ++ t) = s :: split "."%char t.
Proof.
  induction s as [|c s IH]; [reflexivity|].
  cbn [no_dot]. intros H. apply andb_prop in H as [Hc Hs].
  cbn [String.append split] in *.
  destruct (Ascii.eqb c "."%char); [discriminate|]. rewrite (IH Hs). reflexivity.
Qed.

Lemma digits_no_dot (d : Decimal.uint) : no_dot (NilEmpty.string_of_uint d) = true.
Proof. induction d; cbn [NilEmpty.string_of_uint no_dot]; auto. Qed.

Lemma str_of_int_no_dot (n : Z) : 0 <= n -> no_dot (str_of_int n) = true.
Proof.
  intros Hn. unfold str_of_int. destruct n as [|p|p]; [reflexivity| |lia].
  cbn [Z.to_int NilZero.string_of_int]. unfold NilZero.string_of_uint.
  destruct (Pos.to_uint p); try reflexivity; apply digits_no_dot.
Qed.

Lemma split_dotted (octets : list Z) :
  octets <> [] ->
  Forall (fun n => 0 <= n <= 255) octets ->
  split "."%char (dotted octets) = map str_of_int octets.
Proof.
  unfold dotted. intros Hne Hall. induction Hall as [|n octets Hn Hall IH]; [congruence|].
  destruct octets as [|m octets].
  - cbn [map String.concat]. apply split_no_dot, str_of_int_no_dot. lia.
  - cbn [map String.concat] in *. rewrite split_piece by (apply str_of_int_no_dot; lia).
    rewrite IH by discriminate. reflexivity.
Qed.

Lemma decimal_int_of_str (n : Z) : decimal_int (str_of_int n) = Ok n.
Proof.
  unfold decimal_int, str_of_int. rewrite NilZero.isi.
  - rewrite DecimalZ.of_to. reflexivity.
  - destruct n; cbn; try discriminate.
    intros H. injection H as H. exact (DecimalPos.Unsigned.to_uint_nonnil _ H).
  - destruct n; cbn; try discriminate.
    intros H. injection H as H. exact (DecimalPos.Unsigned.to_uint_nonnil _ H).
Qed.

(** For an address written as dot-separated decimal octets, the sort key
    is the list of the octets as numbers, so comparing keys compares
    addresses octet by octet as numbers and not as text. *)
Theorem sort_key_of_dotted_address (py_int : string -> Exc Z) (octets : list Z) :
  (forall n, 0 <= n <= 255 -> py_int (str_of_int n) = Ok n) ->
  octets <> [] ->
  Forall (fun n => 0 <= n <= 255) octets ->
  sort_ip_address_key py_int (PyStr (dotted octets)) = Ok octets.
Proof.
  intros Hint Hne Hall. unfold sort_ip_address_key.
  rewrite (split_dotted octets Hne Hall).
  assert (Hmap : exc_map py_int (map str_of_int octets) = Ok octets).
  { clear Hne. induction Hall as [|n octets Hn Hall IH]; [reflexivity|].
    cbn [map exc_map]. rewrite (Hint n Hn). cbn [exc_bind]. rewrite IH. reflexivity. }
  rewrite Hmap. reflexivity.
Qed.

Lemma sort_key_of_dotted_address_witness :
  sort_ip_address_key decimal_int (PyStr (dotted [10; 0; 0; 9])) = Ok [10; 0; 0; 9].
Proof.
  apply (sort_key_of_dotted_address decimal_int [10; 0; 0; 9]).
  - intros n _. apply decimal_int_of_str.
  - discriminate.
  - repeat constructor; lia.
Defined.
